(** * Revenue Guardian: reconciliation engine

    A shallow embedding of [src/config.py], [src/utils.py],
    [src/reconciliation_engine.py] and the analysis step of [src/app.py].

    - A Python [str] is a list of Unicode code points ([pystr]).  The
      builtins that depend on the Unicode database ([str.lower] per code
      point, [str.isspace]) and [repr] of a float are section variables.
    - A DataFrame cell is a [pyval]: text, a boolean, an integer or a
      binary64 float (a primitive float; NaN is the missing value).
      Integers are assumed to lie in the int64 range, as [read_csv] stores
      them.
    - A column's dtype is not stored: it is inferred from its cells as
      [read_csv] and the DataFrame constructor infer it ([infer_dtype]);
      an empty column is [object], as [read_csv] gives it.  [df.iterrows()]
      casts every row to the common type of the columns' dtypes.
    - [Series.sum()] and [Series.mean()] follow pandas' [nanops]: float64
      columns are added by numpy's pairwise summation, in float arithmetic;
      int64 and bool columns in wrapping int64 arithmetic; object columns
      with Python's [+], from the first cell.
    - The scorer handed to [process.extractOne] ([fuzz.token_sort_ratio])
      is a section variable returning the score, a float, as an exact
      rational; [extractOne] itself is modelled after the library: the
      first choice with the strictly highest score, among those whose score
      reaches the cut-off 0, its score rounded to an integer ([round]).
    - Methods of [ReconciliationEngine] are state transformers on the engine
      record, in a state-and-exception monad. *)

From Stdlib Require Import ZArith List String Ascii Bool QArith Lia.
From Stdlib Require Import Numbers.DecimalString.
From Stdlib Require Import Qround Qabs Lqa.
From Stdlib Require Import PrimFloat.
From Stdlib Require SpecFloat FloatOps FloatAxioms.
Import ListNotations.

Open Scope Z_scope.

(** ** config.py *)

Definition DEFAULT_MATCH_THRESHOLD : Z := 70.
Definition HIGH_CONFIDENCE_THRESHOLD : Z := 90.

(** [RISK_LEVELS] *)
Definition RISK_HIGH : string := "High".
Definition RISK_MEDIUM : string := "Medium".
Definition RISK_LOW : string := "Low".

(** [INVOICE_COLUMNS] and [CLINICAL_COLUMNS] (the entries the engine uses) *)
Definition INV_PO_NUMBER : string := "PO_Number".
Definition INV_VENDOR_ITEM : string := "Vendor_Item_Name".
Definition INV_UNIT_COST : string := "Unit_Cost".
Definition CLIN_CLINICAL_ITEM : string := "Clinical_Item_Desc".

(** Status labels returned by [classify_risk]. *)
Definition STATUS_MATCH_FOUND : string := "✅ Match Found".
Definition STATUS_REVIEW_REQUIRED : string := "⚠️ Review Required".
Definition STATUS_REVENUE_LEAKAGE : string := "❌ REVENUE LEAKAGE".

(** ** Python values *)

(** A Python [str]: its code points. *)
Definition pystr := list Z.

(** An ASCII literal as a [pystr]. *)
Definition pys (s : string) : pystr :=
  map (fun a => Z.of_nat (nat_of_ascii a)) (list_ascii_of_string s).

(** [str(z)] for a Python [int]. *)
Definition Z_to_pystr (z : Z) : pystr :=
  pys (NilEmpty.string_of_int (Z.to_int z)).

(** *** Floats *)

(** The exact value of a finite float of mantissa [m] and exponent [e]. *)
Definition mag_q (m : positive) (e : Z) : Q :=
  match e with
  | Z0 => inject_Z (Zpos m)
  | Zpos p => inject_Z (Zpos m * Z.pow_pos 2 p)
  | Zneg p => Zpos m # Pos.pow 2 p
  end.

Definition sf_q (f : SpecFloat.spec_float) : option Q :=
  match f with
  | SpecFloat.S754_zero _ => Some 0%Q
  | SpecFloat.S754_finite s m e => Some (if s then - mag_q m e else mag_q m e)%Q
  | _ => None
  end.

(** The exact value of a float; [None] for infinities and NaN. *)
Definition float_q (f : float) : option Q := sf_q (FloatOps.Prim2SF f).

(** A spec float that is not negative: a zero, an infinity or NaN, or a
    finite float with a clear sign bit. *)
Definition sf_nonneg (f : SpecFloat.spec_float) : Prop :=
  match f with SpecFloat.S754_finite s _ _ => s = false | _ => True end.

(** The sign bit of a float (set for [-0.0]); false for NaN. *)
Definition float_sign (f : float) : bool :=
  match FloatOps.Prim2SF f with
  | SpecFloat.S754_zero s | SpecFloat.S754_infinity s | SpecFloat.S754_finite s _ _ => s
  | SpecFloat.S754_nan => false
  end.

(** [float(z)]: the nearest float, ties to even. *)
Definition float_of_Z (z : Z) : float :=
  FloatOps.SF2Prim (SpecFloat.binary_normalize 53 1024 z 0 false).

(** Rounding of a rational to an integer, half to even ([round], and the
    rounding of float formatting). *)
Definition round_half_even (q : Q) : Z :=
  let f := Qfloor q in
  match Qcompare (q - inject_Z f) (1 # 2) with
  | Lt => f
  | Gt => f + 1
  | Eq => if Z.even f then f else f + 1
  end.

(** Two's-complement wrap-around of numpy's int64 arithmetic. *)
Definition wrap64 (z : Z) : Z := (z + 2 ^ 63) mod 2 ^ 64 - 2 ^ 63.

Inductive pyval : Type :=
| PStr (s : pystr)
| PBool (b : bool)
| PInt (z : Z)
| PFloat (f : float).

(** The number a cell holds ([bool] is a subclass of [int]); [None] for
    text. *)
Definition num_val (v : pyval) : option pyval :=
  match v with
  | PStr _ => None
  | _ => Some v
  end.

(** [float(v)] of a number ([nan] stands in for text, never used there). *)
Definition as_float (v : pyval) : float :=
  match v with
  | PBool b => if b then 1%float else 0%float
  | PInt z => float_of_Z z
  | PFloat f => f
  | PStr _ => nan
  end.

(** The int64 value of an int or bool cell. *)
Definition as_int64 (v : pyval) : Z :=
  match v with
  | PBool b => if b then 1 else 0
  | PInt z => z
  | _ => 0
  end.

(** A missing value: a NaN float. *)
Definition is_na (v : pyval) : bool :=
  match v with PFloat f => is_nan f | _ => false end.

(** ** Exceptions and the engine monad *)

(** Error of [validate_dataframe]: its message is either
    ["DataFrame is empty"] or ["Missing required columns: " + ', '.join(missing)];
    the missing columns are kept as a list (Python joins a [set], in an
    unspecified order). *)
Inductive verr : Type :=
| DataFrameEmpty
| MissingColumns (cols : list string).

Inductive exn : Type :=
| ValidationError (context : string) (err : option verr)
    (** [ValueError(f"{context}: {err}")] raised by [reconcile] *)
| ValueError (what : string)
| TypeError (what : string)
| KeyError (key : string)
| IndexError.

Inductive except (A : Type) : Type :=
| Ok (a : A)
| Err (e : exn).
Arguments Ok {A} a.
Arguments Err {A} e.

Definition ebind {A B} (m : except A) (k : A -> except B) : except B :=
  match m with Ok a => k a | Err e => Err e end.

Notation "x <-? m ;; k" := (ebind m (fun x => k))
  (at level 61, m at next level, right associativity).

(** The engine: [self.match_threshold]. *)
Record engine : Type := mkEngine { match_threshold : Z }.

(** A method of the engine: reads and may update [self], may raise. *)
Definition M (A : Type) : Type := engine -> except A * engine.

Definition ret {A} (a : A) : M A := fun self => (Ok a, self).
Definition raise {A} (e : exn) : M A := fun self => (Err e, self).
Definition lift {A} (m : except A) : M A := fun self => (m, self).
Definition get_self : M engine := fun self => (Ok self, self).
Definition bind {A B} (m : M A) (k : A -> M B) : M B :=
  fun self =>
    match m self with
    | (Ok a, self') => k a self'
    | (Err e, self') => (Err e, self')
    end.

Notation "x <- m ;; k" := (bind m (fun x => k))
  (at level 61, m at next level, right associativity).

Fixpoint mapM {A B} (f : A -> M B) (l : list A) : M (list B) :=
  match l with
  | [] => ret []
  | x :: xs => y <- f x ;; ys <- mapM f xs ;; ret (y :: ys)
  end.

(** ** ReconciliationEngine.classify_risk *)

Definition classify_risk (self : engine) (match_score : Z) : string * string :=
  if match_score >=? HIGH_CONFIDENCE_THRESHOLD then (STATUS_MATCH_FOUND, RISK_LOW)
  else if match_score >=? match_threshold self then (STATUS_REVIEW_REQUIRED, RISK_MEDIUM)
  else (STATUS_REVENUE_LEAKAGE, RISK_HIGH).

(** ** DataFrames *)

(** A DataFrame: its column labels and its rows; a row gives a value for
    every label (the engine reads only columns checked by validation). *)
Record dataframe : Type := mkDataFrame {
  df_columns : list string;
  df_rows : list (string -> pyval)
}.

(** The dtypes a column can have here. *)
Inductive dtype : Type := DInt64 | DFloat64 | DBool | DObject.

Definition is_str (v : pyval) : bool := match v with PStr _ => true | _ => false end.
Definition is_bool (v : pyval) : bool := match v with PBool _ => true | _ => false end.
Definition is_float (v : pyval) : bool := match v with PFloat _ => true | _ => false end.

(** The dtype inferred for a column of cells ([lib.maybe_convert_objects]):
    text, or booleans mixed with numbers, give [object]; only booleans give
    [bool]; numbers with a float give [float64]; only integers [int64]. *)
Definition infer_dtype (vs : list pyval) : dtype :=
  match vs with
  | [] => DObject
  | _ =>
      if existsb is_str vs then DObject
      else if forallb is_bool vs then DBool
      else if existsb is_bool vs then DObject
      else if existsb is_float vs then DFloat64
      else DInt64
  end.

(** A cell as the column of dtype [dt] stores it: integers of a float64
    column are floats. *)
Definition astype_cell (dt : dtype) (v : pyval) : pyval :=
  match dt, v with
  | DFloat64, PInt z => PFloat (float_of_Z z)
  | _, _ => v
  end.

(** [find_common_type] of two dtypes. *)
Definition dtype_join (a b : dtype) : dtype :=
  match a, b with
  | DInt64, DInt64 => DInt64
  | DBool, DBool => DBool
  | DInt64, DFloat64 | DFloat64, DInt64 | DFloat64, DFloat64 => DFloat64
  | _, _ => DObject
  end.

Definition common_dtype (ds : list dtype) : dtype :=
  match ds with
  | [] => DObject
  | d :: ds' => fold_left dtype_join ds' d
  end.

(** The cells of column [c], as read from the rows. *)
Definition column_cells (df : dataframe) (c : string) : list pyval :=
  map (fun r => r c) (df_rows df).

Definition df_dtype (df : dataframe) (c : string) : dtype :=
  infer_dtype (column_cells df c).

(** [df[c].tolist()]: the column's values in its dtype. *)
Definition column_values (df : dataframe) (c : string) : list pyval :=
  map (astype_cell (df_dtype df c)) (column_cells df c).

(** The dtype of the Series [df.iterrows()] yields ([df.values]). *)
Definition row_dtype (df : dataframe) : dtype :=
  common_dtype (map (df_dtype df) (df_columns df)).

(** A row as [df.iterrows()] yields it: each cell in its column's dtype,
    then cast to the common dtype. *)
Definition iter_row (df : dataframe) (r : string -> pyval) : string -> pyval :=
  fun c => astype_cell (row_dtype df) (astype_cell (df_dtype df c) (r c)).

Definition iterrows (df : dataframe) : list (string -> pyval) :=
  map (iter_row df) (df_rows df).

(** [df.empty]: no rows or no columns. *)
Definition df_empty (df : dataframe) : bool :=
  match df_rows df, df_columns df with
  | [], _ => true
  | _, [] => true
  | _, _ => false
  end.

(** [set(required_columns) - set(df.columns)] *)
Definition missing_columns (df : dataframe) (required_columns : list string) : list string :=
  filter (fun c => negb (existsb (String.eqb c) (df_columns df))) required_columns.

(** [validate_dataframe] (utils.py) *)
Definition validate_dataframe (df : dataframe) (required_columns : list string)
  : bool * option verr :=
  if df_empty df then (false, Some DataFrameEmpty)
  else
    let missing_columns := missing_columns df required_columns in
    match missing_columns with
    | [] => (true, None)
    | _ => (false, Some (MissingColumns missing_columns))
    end.

(** ** Float formatting: [f"{v:,.2f}"] *)

(** Decimal digits of [n >= 0], most significant first. *)
Fixpoint digits_fuel (fuel : nat) (n : Z) : pystr :=
  match fuel with
  | O => []
  | S f => if n <? 10 then [48 + n] else digits_fuel f (n / 10) ++ [48 + n mod 10]
  end.

Definition digits (n : Z) : pystr := digits_fuel (S (Z.to_nat (Z.log2 n))) n.

Definition COMMA : Z := 44.

(** The [,] option on reversed digits: a comma after every three digits
    that are followed by more. *)
Fixpoint group_rev (ds : pystr) : pystr :=
  match ds with
  | a :: b :: c :: ((_ :: _) as rest) => a :: b :: c :: COMMA :: group_rev rest
  | _ => ds
  end.

Definition group_thousands (ds : pystr) : pystr := rev (group_rev (rev ds)).

(** A magnitude [a >= 0] rounded to cents, half to even, with thousands
    separators. *)
Definition fixed_2f (a : Q) : pystr :=
  let cents := round_half_even (a * 100) in
  group_thousands (digits (cents / 100)) ++ pys "."
  ++ [48 + (cents mod 100) / 10; 48 + cents mod 10].

Definition sign_str (s : bool) : pystr := if s then pys "-" else [].

(** [format(f, ',.2f')] of a float: the sign bit as a minus (also for
    [-0.0] and amounts that round to zero), then the magnitude; [nan] and
    [inf] are written as words. *)
Definition format_float_2f (f : float) : pystr :=
  match FloatOps.Prim2SF f with
  | SpecFloat.S754_nan => pys "nan"
  | SpecFloat.S754_infinity s => sign_str s ++ pys "inf"
  | SpecFloat.S754_zero s => sign_str s ++ fixed_2f 0
  | SpecFloat.S754_finite s m e => sign_str s ++ fixed_2f (mag_q m e)
  end.

(** [f"{v:,.2f}"] of a cell: an [int] or [bool] is converted to float, text
    raises. *)
Definition format_2f (v : pyval) : except pystr :=
  match v with
  | PStr _ => Err (ValueError "Unknown format code 'f' for object of type 'str'")
  | _ => Ok (format_float_2f (as_float v))
  end.

Section Engine.

(** [str.lower] on one code point (it may yield several). *)
Variable py_lower : Z -> list Z.
(** [str.isspace] on one code point; also the class [\s] of [re] and the
    separators of [str.split()]. *)
Variable py_isspace : Z -> bool.
(** [str(x)] for a Python [float]. *)
Variable float_repr : float -> pystr.
(** The scorer [fuzz.token_sort_ratio] as [process.extractOne] applies it
    (after its string processing): the float score, as an exact rational. *)
Variable scorer : pystr -> pystr -> Q.

(** *** utils.normalize_text *)

Definition SPACE : Z := 32.

(** [str(x)] *)
Definition py_str (v : pyval) : pystr :=
  match v with
  | PStr s => s
  | PBool b => if b then pys "True" else pys "False"
  | PInt z => Z_to_pystr z
  | PFloat q => float_repr q
  end.

(** [text.lower()] *)
Definition str_lower (s : pystr) : pystr := flat_map py_lower s.

(** Membership in the class [[a-z0-9\s]]. *)
Definition keep_char (c : Z) : bool :=
  ((97 <=? c) && (c <=? 122)) || ((48 <=? c) && (c <=? 57)) || py_isspace c.

(** [re.sub(r'[^a-z0-9\s]', ' ', text)] *)
Definition re_sub_special (s : pystr) : pystr :=
  map (fun c => if keep_char c then c else SPACE) s.

(** [text.split()]: the pending (first) word and the following words. *)
Fixpoint split_aux (s : pystr) : pystr * list pystr :=
  match s with
  | [] => ([], [])
  | c :: s' =>
      let '(w, ws) := split_aux s' in
      if py_isspace c then ([], match w with [] => ws | _ => w :: ws end)
      else (c :: w, ws)
  end.

Definition py_split (s : pystr) : list pystr :=
  let '(w, ws) := split_aux s in
  match w with [] => ws | _ => w :: ws end.

(** [' '.join(words)] *)
Definition sep_join (ws : list pystr) : pystr :=
  flat_map (fun w => SPACE :: w) ws.

Definition py_join (ws : list pystr) : pystr :=
  match ws with [] => [] | w :: ws' => w ++ sep_join ws' end.

Definition normalize_text (text : pyval) : pystr :=
  match text with
  | PStr t => py_join (py_split (re_sub_special (str_lower t)))
  | _ => py_str text
  end.

(** The transformation as the specification words it: lowercase, replace
    every character outside a-z, 0-9 and whitespace by a space, collapse
    each run of whitespace into one space, trim both ends. *)
Fixpoint collapse_ws (in_ws : bool) (s : pystr) : pystr :=
  match s with
  | [] => []
  | c :: s' =>
      if py_isspace c then
        if in_ws then collapse_ws true s' else SPACE :: collapse_ws true s'
      else c :: collapse_ws false s'
  end.

Fixpoint strip_leading (s : pystr) : pystr :=
  match s with
  | c :: s' => if c =? SPACE then strip_leading s' else s
  | [] => []
  end.

Definition trim (s : pystr) : pystr := rev (strip_leading (rev (strip_leading s))).

Definition normalize_spec (s : pystr) : pystr :=
  trim (collapse_ws false
          (map (fun c => if keep_char c then c else SPACE) (str_lower s))).

(** Auxiliary single-pass form of whitespace normalisation used in proofs:
    [started] once a word was emitted, [pending] when a separator is owed. *)
Fixpoint norm_ws (started pending : bool) (s : pystr) : pystr :=
  match s with
  | [] => []
  | c :: s' =>
      if py_isspace c then norm_ws started started s'
      else if pending then SPACE :: c :: norm_ws true false s'
      else c :: norm_ws true false s'
  end.

Definition has_nonws (s : pystr) : bool := existsb (fun c => negb (py_isspace c)) s.

Fixpoint ends_ws (s : pystr) : bool :=
  match s with
  | [] => false
  | [c] => py_isspace c
  | _ :: s' => ends_ws s'
  end.

(** A word of [s.split()]: non-empty, made of non-space characters of [x]. *)
Definition word_ok (x : pystr) (v : pystr) : Prop :=
  v <> [] /\ forall c, In c v -> In c x /\ py_isspace c = false.

(** *** ReconciliationEngine.fuzzy_match_item *)

(** [process.extractOne(query, choices, scorer=scorer)] with
    [score_cutoff=0]: scan in order, keep a choice when its score reaches
    the cut-off and beats the best so far strictly. *)
Fixpoint extract_aux (query : pystr) (choices : list pystr) (best : option (pystr * Q))
  : option (pystr * Q) :=
  match choices with
  | [] => best
  | c :: cs =>
      let s := scorer query c in
      let better := match best with None => true | Some (_, b) => negb (Qle_bool s b) end in
      if Qle_bool 0 s && better then extract_aux query cs (Some (c, s))
      else extract_aux query cs best
  end.

(** thefuzz's [extractOne]: the selected choice, its float score rounded
    to an integer ([int(round(score))]). *)
Definition extractOne (query : pystr) (choices : list pystr) : option (pystr * Z) :=
  match extract_aux query choices None with
  | Some (c, s) => Some (c, round_half_even s)
  | None => None
  end.

Fixpoint pystr_eqb (a b : pystr) : bool :=
  match a, b with
  | [], [] => true
  | x :: a', y :: b' => (x =? y) && pystr_eqb a' b'
  | _, _ => false
  end.

(** [list.index(x)]: first position holding [x], [ValueError] otherwise. *)
Fixpoint list_index (x : pystr) (l : list pystr) : except nat :=
  match l with
  | [] => Err (ValueError "list.index(x): x not in list")
  | y :: l' => if pystr_eqb x y then Ok 0%nat
               else i <-? list_index x l' ;; Ok (S i)
  end.

(** [xs[i]] *)
Definition list_get {A} (xs : list A) (i : nat) : except A :=
  match nth_error xs i with Some a => Ok a | None => Err IndexError end.

Definition NO_MATCH_FOUND : pystr := pys "No Match Found".

Definition fuzzy_match_item (vendor_item : pyval) (clinical_items : list pyval)
  : except (pyval * Z) :=
  let normalized_vendor := normalize_text vendor_item in
  let normalized_clinical := map normalize_text clinical_items in
  match extractOne normalized_vendor normalized_clinical with
  | Some (m, score) =>
      match_index <-? list_index m normalized_clinical ;;
      item <-? list_get clinical_items match_index ;;
      Ok (item, score)
  | None => Ok (PStr NO_MATCH_FOUND, 0)
  end.

(** *** ReconciliationEngine.reconcile *)

(** One row of the result DataFrame. *)
Record MatchResult : Type := mkMatchResult {
  mr_po_number : pyval;
  mr_vendor_item : pyval;
  mr_clinical_match : pyval;
  mr_confidence_score : pystr;
  mr_confidence_score_numeric : Z;
  mr_unit_cost : pystr;
  mr_cost_at_risk : pyval;
  mr_status : string;
  mr_risk_level : string
}.

(** The body of the loop over [df_invoice.iterrows()]. *)
Definition reconcile_row (clinical_descriptions : list pyval) (row : string -> pyval)
  : M MatchResult :=
  let vendor_item := row INV_VENDOR_ITEM in
  ms <- lift (fuzzy_match_item vendor_item clinical_descriptions) ;;
  let '(match_name, match_score) := ms in
  self <- get_self ;;
  let '(status, risk_level) := classify_risk self match_score in
  unit_cost_fmt <- lift (format_2f (row INV_UNIT_COST)) ;;
  ret {| mr_po_number := row INV_PO_NUMBER;
         mr_vendor_item := vendor_item;
         mr_clinical_match := match_name;
         mr_confidence_score := Z_to_pystr match_score ++ pys "%";
         mr_confidence_score_numeric := match_score;
         mr_unit_cost := pys "$" ++ unit_cost_fmt;
         mr_cost_at_risk := row INV_UNIT_COST;
         mr_status := status;
         mr_risk_level := risk_level |}.

Definition reconcile (df_invoice df_clinical : dataframe) : M (list MatchResult) :=
  let '(invoice_valid, invoice_error) :=
    validate_dataframe df_invoice [INV_PO_NUMBER; INV_VENDOR_ITEM; INV_UNIT_COST] in
  if negb invoice_valid then raise (ValidationError "Invalid invoice data" invoice_error)
  else
  let '(clinical_valid, clinical_error) :=
    validate_dataframe df_clinical [CLIN_CLINICAL_ITEM] in
  if negb clinical_valid then raise (ValidationError "Invalid clinical data" clinical_error)
  else
  let clinical_descriptions := column_values df_clinical CLIN_CLINICAL_ITEM in
  results <- mapM (reconcile_row clinical_descriptions) (iterrows df_invoice) ;;
  ret results.

End Engine.

(** ** Series reductions ([pandas.core.nanops]) *)

Definition zip_add (r xs : list float) : list float :=
  map (fun p => (fst p + snd p)%float) (combine r xs).

(** The main loop of numpy's [pairwise_sum] on up to 128 values: eight
    running sums, each block of eight values added lane by lane. *)
Fixpoint accumulate8 (fuel : nat) (r xs : list float) : list float * list float :=
  match fuel with
  | O => (r, xs)
  | S f =>
      if (List.length xs <? 8)%nat then (r, xs)
      else accumulate8 f (zip_add r (firstn 8 xs)) (skipn 8 xs)
  end.

Definition combine8 (r : list float) : float :=
  match r with
  | [r0; r1; r2; r3; r4; r5; r6; r7] =>
      (((r0 + r1) + (r2 + r3)) + ((r4 + r5) + (r6 + r7)))%float
  | _ => 0%float
  end.

Definition add_from (acc : float) (xs : list float) : float :=
  fold_left (fun a x => (a + x)%float) xs acc.

(** numpy's [pairwise_sum] for float64: fewer than 8 values are added in
    order from 0; up to 128 values use eight lanes, then the rest in order;
    longer arrays are split at a multiple of 8 near the middle. *)
Fixpoint pairwise_fuel (fuel : nat) (xs : list float) : float :=
  let n := List.length xs in
  if (n <? 8)%nat then add_from 0%float xs
  else if (n <=? 128)%nat then
    let '(r, rest) := accumulate8 n (firstn 8 xs) (skipn 8 xs) in
    add_from (combine8 r) rest
  else
    match fuel with
    | O => 0%float
    | S f =>
        let n2 := (n / 2 - (n / 2) mod 8)%nat in
        (pairwise_fuel f (firstn n2 xs) + pairwise_fuel f (skipn n2 xs))%float
    end.

Definition pairwise_sum (xs : list float) : float := pairwise_fuel (List.length xs) xs.

(** [np.add.reduce] of a float64 array: the identity 0.0 plus the pairwise
    sum. *)
Definition np_sum (xs : list float) : float := (0 + pairwise_sum xs)%float.

(** Splitting into buffers of [k] values. *)
Fixpoint chunks_fuel (fuel k : nat) (xs : list float) : list (list float) :=
  match fuel with
  | O => []
  | S f =>
      match xs with
      | [] => []
      | _ => firstn k xs :: chunks_fuel f k (skipn k xs)
      end
  end.

(** [np.add.reduce(a, dtype=float64)] of an int64 array: cast through
    buffers of 8192 values, each added pairwise to the running total. *)
Definition buffered_sum (xs : list float) : float :=
  fold_left (fun acc ch => (acc + pairwise_sum ch)%float) (chunks_fuel (List.length xs) (Nat.pow 2 13) xs) 0%float.

(** Python [+] on two cells of an object column. *)
Definition py_add (a b : pyval) : except pyval :=
  match a, b with
  | PStr x, PStr y => Ok (PStr (x ++ y))
  | PStr _, _ | _, PStr _ => Err (TypeError "unsupported operand type(s) for +")
  | (PInt _ | PBool _), (PInt _ | PBool _) => Ok (PInt (as_int64 a + as_int64 b))
  | _, _ => Ok (PFloat (as_float a + as_float b)%float)
  end.

Fixpoint sum_from (acc : pyval) (xs : list pyval) : except pyval :=
  match xs with
  | [] => Ok acc
  | x :: xs' => acc' <-? py_add acc x ;; sum_from acc' xs'
  end.

(** NaN cells replaced by 0 ([skipna]). *)
Definition fill_na (v : pyval) : pyval := if is_na v then PInt 0 else v.

Definition nan_to_zero (f : float) : float := if is_nan f then 0%float else f.

(** The sum of an object array: 0 when empty, else the cells added with
    Python's [+] from the first one. *)
Definition object_sum (xs : list pyval) : except pyval :=
  match map fill_na xs with
  | [] => Ok (PInt 0)
  | x :: xs' => sum_from x xs'
  end.

(** Number of non-missing cells. *)
Definition count_valid (xs : list pyval) : nat := List.length (filter (fun v => negb (is_na v)) xs).

(** [Series.sum()] of a column of dtype [dt] holding [xs] ([nansum]). *)
Definition series_sum_dt (dt : dtype) (xs : list pyval) : except pyval :=
  match dt with
  | DFloat64 => Ok (PFloat (np_sum (map (fun v => nan_to_zero (as_float v)) xs)))
  | DInt64 | DBool => Ok (PInt (wrap64 (fold_right (fun v acc => as_int64 v + acc) 0 xs)))
  | DObject => object_sum xs
  end.

(** [the_sum / count if count > 0 else np.nan] *)
Definition div_count (s : float) (n : nat) : pyval :=
  PFloat (if (0 <? n)%nat then (s / float_of_Z (Z.of_nat n))%float else nan).

(** [_ensure_numeric] of an object sum: text raises. *)
Definition ensure_numeric (v : pyval) : except float :=
  match v with
  | PStr _ => Err (TypeError "Could not convert to numeric")
  | _ => Ok (as_float v)
  end.

(** [Series.mean()] of a column of dtype [dt] holding [xs] ([nanmean]). *)
Definition series_mean_dt (dt : dtype) (xs : list pyval) : except pyval :=
  match dt with
  | DFloat64 => Ok (div_count (np_sum (map (fun v => nan_to_zero (as_float v)) xs)) (count_valid xs))
  | DInt64 => Ok (div_count (buffered_sum (map as_float xs)) (List.length xs))
  | DBool => Ok (div_count (float_of_Z (wrap64 (fold_right (fun v acc => as_int64 v + acc) 0 xs)))
                           (List.length xs))
  | DObject =>
      s <-? object_sum xs ;;
      f <-? ensure_numeric s ;;
      Ok (div_count f (count_valid xs))
  end.

(** [pd.Series(xs).sum()]: the sum of a column holding [xs]. *)
Definition series_sum (xs : list pyval) : except pyval :=
  let dt := infer_dtype xs in series_sum_dt dt (map (astype_cell dt) xs).

(** ** ReconciliationEngine.generate_summary_stats *)

Record SummaryEntry : Type := mkSummaryEntry {
  se_count : nat;
  se_total_amount : pyval;
  se_avg_amount : pyval
}.

(** One tier; [dt] is the dtype of the [Cost_At_Risk] column. *)
Definition summary_entry (dt : dtype) (df_results : list MatchResult) (risk_level : string)
  : except SummaryEntry :=
  let filtered := filter (fun r => String.eqb (mr_risk_level r) risk_level) df_results in
  let costs := map (fun r => astype_cell dt (mr_cost_at_risk r)) filtered in
  total <-? series_sum_dt dt costs ;;
  avg <-? (if (0 <? List.length filtered)%nat then series_mean_dt dt costs else Ok (PInt 0)) ;;
  Ok {| se_count := List.length filtered; se_total_amount := total; se_avg_amount := avg |}.

Fixpoint summary_loop (dt : dtype) (df_results : list MatchResult) (levels : list string)
  : except (list (string * SummaryEntry)) :=
  match levels with
  | [] => Ok []
  | l :: ls =>
      e <-? summary_entry dt df_results l ;;
      rest <-? summary_loop dt df_results ls ;;
      Ok ((l, e) :: rest)
  end.

(** The summary dict, in insertion order.  [df_results] is the list of
    result rows; with no rows the DataFrame has no [Risk_Level] column. *)
Definition generate_summary_stats (df_results : list MatchResult)
  : M (list (string * SummaryEntry)) :=
  match df_results with
  | [] => raise (KeyError "Risk_Level")
  | _ =>
      let dt := infer_dtype (map mr_cost_at_risk df_results) in
      lift (summary_loop dt df_results [RISK_HIGH; RISK_MEDIUM; RISK_LOW])
  end.

(** ** utils.calculate_financial_metrics *)

(** [df[column]]: the column's dtype and values; [None] stands for the
    [KeyError] of a label the DataFrame does not have. *)
Definition df_column (df : dataframe) (column : string) : option (dtype * list pyval) :=
  if existsb (String.eqb column) (df_columns df)
  then Some (df_dtype df column, column_values df column)
  else None.

Record FinancialMetrics : Type := mkFinancialMetrics {
  fm_total_amount : pyval;
  fm_count : nat;
  fm_average_amount : pyval
}.

(** The body of the [try] block; [None] when it raises. *)
Definition financial_metrics_try (df : dataframe) (cost_column : string)
  : option FinancialMetrics :=
  match df_column df cost_column with
  | None => None
  | Some (dt, cells) =>
      match series_sum_dt dt cells with
      | Err _ => None
      | Ok total_amount =>
          let count := List.length (df_rows df) in
          match series_mean_dt dt cells with
          | Err _ => None
          | Ok avg_amount =>
              Some {| fm_total_amount := total_amount;
                      fm_count := count;
                      fm_average_amount := avg_amount |}
          end
      end
  end.

(** [except Exception]: the error is logged and zeros are returned. *)
Definition calculate_financial_metrics (df : dataframe) (cost_column : string)
  : FinancialMetrics :=
  match financial_metrics_try df cost_column with
  | Some m => m
  | None => {| fm_total_amount := PFloat 0;
               fm_count := 0;
               fm_average_amount := PFloat 0 |}
  end.

(** ** utils.format_currency *)

Definition format_currency (amount : pyval) : except pystr :=
  s <-? format_2f amount ;;
  Ok (pys "$" ++ s).

(** Reading back a formatted amount: the number its decimal digits spell,
    other characters skipped. *)
Fixpoint read_digits (acc : Z) (s : pystr) : Z :=
  match s with
  | [] => acc
  | c :: s' => read_digits (if (48 <=? c) && (c <=? 57) then acc * 10 + (c - 48) else acc) s'
  end.

Definition is_digit (c : Z) : bool := (48 <=? c) && (c <=? 57).

(** ** app.py: the analysis step (the KPIs, then [reconcile] and
    [generate_summary_stats] inside [try] ... [except Exception]) *)

(** How the step ends: an exception raised outside the [try] (the script
    fails), the handler's [st.error] and [st.stop()], or the report: the
    Invoices Processed and Total Spend KPIs, the results and the summary. *)
Inductive app_outcome : Type :=
| Uncaught (what : string)
| Stopped (e : exn)
| Shown (invoices_processed : nat) (total_spend : pyval)
        (df_results : list MatchResult) (summary_stats : list (string * SummaryEntry)).

Section App.

Variable py_lower : Z -> list Z.
Variable py_isspace : Z -> bool.
Variable float_repr : float -> pystr.
Variable scorer : pystr -> pystr -> Q.

Definition app_analysis (match_threshold : Z) (df_inv df_clin : dataframe) : app_outcome :=
  let total_invoiced := List.length (df_rows df_inv) in
  match df_column df_inv INV_UNIT_COST with
  | None => Uncaught "KeyError"
  | Some (dt, unit_costs) =>
      match series_sum_dt dt unit_costs with
      | Err _ => Uncaught "TypeError"
      | Ok total_spend =>
          match format_currency total_spend with
          | Err _ => Uncaught "ValueError"
          | Ok _ =>
              let engine := mkEngine match_threshold in
              match reconcile py_lower py_isspace float_repr scorer df_inv df_clin engine with
              | (Err e, _) => Stopped e
              | (Ok df_results, engine') =>
                  match generate_summary_stats df_results engine' with
                  | (Err e, _) => Stopped e
                  | (Ok summary_stats, _) => Shown total_invoiced total_spend df_results summary_stats
                  end
              end
          end
      end
  end.

End App.

(** ** Concrete builtins, for evaluating the model on examples *)

(** [str.lower] on ASCII code points (other code points are left as they
    are; the examples use ASCII only). *)
Definition ascii_lower (c : Z) : list Z :=
  if (65 <=? c) && (c <=? 90) then [c + 32] else [c].

(** [str.isspace]: the code points CPython reports as whitespace. *)
Definition unicode_isspace (c : Z) : bool :=
  ((9 <=? c) && (c <=? 13)) || ((28 <=? c) && (c <=? 32)) || (c =? 133) || (c =? 160)
  || (c =? 5760) || ((8192 <=? c) && (c <=? 8202)) || (c =? 8232) || (c =? 8233)
  || (c =? 8239) || (c =? 8287) || (c =? 12288).

(** [repr] of a float, for NaN, the infinities and integral values below
    [1e16] (written with a trailing [.0]); other floats, which the examples
    do not print, are shown as a placeholder. *)
Definition float_repr_inst (f : float) : pystr :=
  match FloatOps.Prim2SF f with
  | SpecFloat.S754_nan => pys "nan"
  | SpecFloat.S754_infinity s => sign_str s ++ pys "inf"
  | SpecFloat.S754_zero s => sign_str s ++ pys "0.0"
  | SpecFloat.S754_finite s m e =>
      let q := Qred (mag_q m e) in
      if (Z.eqb (Zpos (Qden q)) 1 && (Qnum q <? 10 ^ 16))%bool
      then sign_str s ++ digits (Qnum q) ++ pys ".0"
      else pys "<float>"
  end.

(** Lexicographic order on code-point strings, and insertion sort. *)
Fixpoint pystr_leb (a b : pystr) : bool :=
  match a, b with
  | [], _ => true
  | _ :: _, [] => false
  | x :: a', y :: b' => (x <? y) || ((x =? y) && pystr_leb a' b')
  end.

Fixpoint insert_sorted (w : pystr) (ws : list pystr) : list pystr :=
  match ws with
  | [] => [w]
  | v :: ws' => if pystr_leb w v then w :: ws else v :: insert_sorted w ws'
  end.

Definition sort_tokens (ws : list pystr) : list pystr := fold_right insert_sorted [] ws.

(** Length of a longest common subsequence, row by row. *)
Fixpoint lcs_next_row (c : Z) (b : list Z) (prev : list nat) (diag left : nat) : list nat :=
  match b, prev with
  | bj :: b', pj :: prev' =>
      let v := if c =? bj then S diag else Nat.max pj left in
      v :: lcs_next_row c b' prev' pj v
  | _, _ => []
  end.

Definition lcs (a b : list Z) : nat :=
  last (fold_left (fun prev c => lcs_next_row c b prev 0%nat 0%nat) a (repeat 0%nat (List.length b)))
       0%nat.

(** thefuzz's processing of both strings ([utils.full_process]) on ASCII
    text: lowercase, every character other than a letter or a digit
    replaced by a space, spaces stripped at both ends. *)
Definition is_alnum_ascii (c : Z) : bool :=
  ((97 <=? c) && (c <=? 122)) || ((65 <=? c) && (c <=? 90)) || ((48 <=? c) && (c <=? 57)).

Definition full_process (s : pystr) : pystr :=
  trim (map (fun c => if is_alnum_ascii c then c else SPACE) (flat_map ascii_lower s)).

(** The end of rapidfuzz's [ratio]: [norm_sim >= score_cutoff ? norm_sim : 0.0]
    with the cut-off 0, times 100. *)
Definition ratio_of_sim (norm_sim : float) : float :=
  ((if (0 <=? norm_sim)%float then norm_sim else 0%float) * 100)%float.

(** rapidfuzz's [token_sort_ratio] after processing: sort the whitespace
    tokens, join them with a space, and take the normalized Indel
    similarity, in float arithmetic:
    [1 - dist / (len1 + len2)] with [dist = len1 + len2 - 2 * lcs]. *)
Definition token_sort_ratio_float (a b : pystr) : float :=
  let sa := py_join (sort_tokens (py_split unicode_isspace (full_process a))) in
  let sb := py_join (sort_tokens (py_split unicode_isspace (full_process b))) in
  let n := Z.of_nat (List.length sa + List.length sb) in
  let dist := n - 2 * Z.of_nat (lcs sa sb) in
  let norm_dist := if n =? 0 then 0%float else (float_of_Z dist / float_of_Z n)%float in
  ratio_of_sim (1 - norm_dist)%float.

(** The score as an exact rational (it is always finite). *)
Definition token_sort_ratio_inst (a b : pystr) : Q :=
  match float_q (token_sort_ratio_float a b) with Some q => q | None => 0%Q end.

Definition normalize_text_inst : pyval -> pystr :=
  normalize_text ascii_lower unicode_isspace float_repr_inst.

Definition fuzzy_match_item_inst : pyval -> list pyval -> except (pyval * Z) :=
  fuzzy_match_item ascii_lower unicode_isspace float_repr_inst token_sort_ratio_inst.

Definition reconcile_inst : dataframe -> dataframe -> M (list MatchResult) :=
  reconcile ascii_lower unicode_isspace float_repr_inst token_sort_ratio_inst.

Definition INVOICE_REQUIRED : list string := [INV_PO_NUMBER; INV_VENDOR_ITEM; INV_UNIT_COST].
Definition CLINICAL_REQUIRED : list string := [CLIN_CLINICAL_ITEM].

(** ** Sample data (the layout of the bundled CSV files) *)

#[local] Set Warnings "-inexact-float".

Definition invoice_row (po item : string) (cost : float) : string -> pyval :=
  fun c =>
    if String.eqb c INV_PO_NUMBER then PStr (pys po)
    else if String.eqb c INV_VENDOR_ITEM then PStr (pys item)
    else if String.eqb c INV_UNIT_COST then PFloat cost
    else PInt 1.

Definition sample_invoice : dataframe :=
  mkDataFrame ["Invoice_ID"%string; INV_PO_NUMBER; INV_VENDOR_ITEM; "Quantity"%string; INV_UNIT_COST; "Invoice_Date"%string]
    [invoice_row "PO-1001" "Stryker Knee System" 4500%float;
     invoice_row "PO-1002" "Zimmer Hip Stem" 3200%float].

Definition sample_clinical : dataframe :=
  mkDataFrame ["Case_ID"%string; CLIN_CLINICAL_ITEM; "Qty_Used"%string; "Implant_Date"%string; "PO_Ref_Optional"%string]
    [fun c => if String.eqb c CLIN_CLINICAL_ITEM then PStr (pys "stryker knee total")
              else PInt 1].

(** A result row, by its PO number, item, cost and risk level. *)
Definition result_row (po item : string) (cost : pyval) (level : string) : MatchResult :=
  {| mr_po_number := PStr (pys po);
     mr_vendor_item := PStr (pys item);
     mr_clinical_match := PStr NO_MATCH_FOUND;
     mr_confidence_score := pys "0%";
     mr_confidence_score_numeric := 0;
     mr_unit_cost := [];
     mr_cost_at_risk := cost;
     mr_status := STATUS_REVENUE_LEAKAGE;
     mr_risk_level := level |}.

(** Two result rows of [reconcile]: one leaked, one held for review. *)
Definition leak_result : MatchResult :=
  {| mr_po_number := PStr (pys "PO-1002");
     mr_vendor_item := PStr (pys "Zimmer Hip Stem");
     mr_clinical_match := PStr NO_MATCH_FOUND;
     mr_confidence_score := pys "30%";
     mr_confidence_score_numeric := 30;
     mr_unit_cost := pys "$3,200.00";
     mr_cost_at_risk := PFloat 3200;
     mr_status := STATUS_REVENUE_LEAKAGE;
     mr_risk_level := RISK_HIGH |}.

Definition review_result : MatchResult :=
  {| mr_po_number := PStr (pys "PO-1001");
     mr_vendor_item := PStr (pys "Stryker Knee System");
     mr_clinical_match := PStr (pys "stryker knee total");
     mr_confidence_score := pys "76%";
     mr_confidence_score_numeric := 76;
     mr_unit_cost := pys "$4,500.00";
     mr_cost_at_risk := PFloat 4500;
     mr_status := STATUS_REVIEW_REQUIRED;
     mr_risk_level := RISK_MEDIUM |}.

(** A result row whose [Cost_At_Risk] holds text. *)
Definition text_cost_result : MatchResult :=
  result_row "PO-1003" "Depuy Shoulder Kit" (PStr (pys "N/A")) RISK_HIGH.

(** The sample invoice rows one by one, and an invoice whose second row
    holds a text [Unit_Cost]. *)
Definition knee_row : string -> pyval := invoice_row "PO-1001" "Stryker Knee System" 4500%float.

Definition hip_row : string -> pyval := invoice_row "PO-1002" "Zimmer Hip Stem" 3200%float.

Definition text_cost_row : string -> pyval :=
  fun c => if String.eqb c INV_UNIT_COST then PStr (pys "N/A")
           else invoice_row "PO-1003" "Depuy Shoulder Kit" 0%float c.

Definition text_invoice : dataframe :=
  mkDataFrame (df_columns sample_invoice) [knee_row; text_cost_row].

(** Three results with float costs: 4500.10 and 1250.35 in the High tier,
    3200.20 in the Medium tier. *)
Definition float_tier_results : list MatchResult :=
  [result_row "PO-2001" "Item A" (PFloat 4500.10) RISK_HIGH;
   result_row "PO-2002" "Item B" (PFloat 3200.20) RISK_MEDIUM;
   result_row "PO-2003" "Item C" (PFloat 1250.35) RISK_HIGH].



(** * Properties *)

(** ** Risk classification *)

(** C1: a score of at least 90 ([HIGH_CONFIDENCE_THRESHOLD], inclusive) is
    classified ("Match Found", Low) whatever the configured threshold;
    otherwise a score of at least [match_threshold] is ("Review Required",
    Medium); otherwise ("REVENUE LEAKAGE", High).  With threshold 70:
    95 is Low, 75 Medium, 50 High and 90 Low. *)
Theorem classify_risk_tiers :
  (forall self s, HIGH_CONFIDENCE_THRESHOLD <= s ->
     classify_risk self s = (STATUS_MATCH_FOUND, RISK_LOW)) /\
  (forall self s, s < HIGH_CONFIDENCE_THRESHOLD -> match_threshold self <= s ->
     classify_risk self s = (STATUS_REVIEW_REQUIRED, RISK_MEDIUM)) /\
  (forall self s, s < HIGH_CONFIDENCE_THRESHOLD -> s < match_threshold self ->
     classify_risk self s = (STATUS_REVENUE_LEAKAGE, RISK_HIGH)) /\
  HIGH_CONFIDENCE_THRESHOLD = 90 /\
  snd (classify_risk (mkEngine 70) 95) = RISK_LOW /\
  snd (classify_risk (mkEngine 70) 75) = RISK_MEDIUM /\
  snd (classify_risk (mkEngine 70) 50) = RISK_HIGH /\
  snd (classify_risk (mkEngine 70) 90) = RISK_LOW.
Proof.
  unfold classify_risk, HIGH_CONFIDENCE_THRESHOLD.
  repeat split; intros.
  - destruct (Z.geb_spec s 90); [reflexivity | lia].
  - destruct (Z.geb_spec s 90); [lia |].
    destruct (Z.geb_spec s (match_threshold self)); [reflexivity | lia].
  - destruct (Z.geb_spec s 90); [lia |].
    destruct (Z.geb_spec s (match_threshold self)); [lia | reflexivity].
Qed.

(** C10: the Medium tier is returned exactly for
    [match_threshold <= score < 90]; when [match_threshold >= 90] no score
    is classified Medium. *)
Theorem classify_medium_iff :
  (forall self s,
     snd (classify_risk self s) = RISK_MEDIUM <->
     match_threshold self <= s < HIGH_CONFIDENCE_THRESHOLD) /\
  (forall self, HIGH_CONFIDENCE_THRESHOLD <= match_threshold self ->
     forall s, snd (classify_risk self s) <> RISK_MEDIUM).
Proof.
  unfold classify_risk, HIGH_CONFIDENCE_THRESHOLD.
  split.
  - intros self s.
    destruct (Z.geb_spec s 90); [split; [discriminate | lia] |].
    destruct (Z.geb_spec s (match_threshold self)); [split; [lia | reflexivity] |].
    split; [discriminate | lia].
  - intros self Hth s.
    destruct (Z.geb_spec s 90); [discriminate |].
    destruct (Z.geb_spec s (match_threshold self)); [lia | discriminate].
Qed.

(** ** Empty candidate list *)

(** C9 (as amended): with no clinical candidates, [fuzzy_match_item]
    returns the sentinel "No Match Found" with score 0, for every query;
    that score is classified High (revenue leakage) when
    [match_threshold > 0], and Medium when [match_threshold <= 0]. *)
Theorem fuzzy_match_empty_high :
  forall py_lower py_isspace float_repr scorer self q,
    fuzzy_match_item py_lower py_isspace float_repr scorer q [] = Ok (PStr NO_MATCH_FOUND, 0) /\
    (0 < match_threshold self -> classify_risk self 0 = (STATUS_REVENUE_LEAKAGE, RISK_HIGH)) /\
    (match_threshold self <= 0 -> classify_risk self 0 = (STATUS_REVIEW_REQUIRED, RISK_MEDIUM)).
Proof.
  intros. repeat split.
  - intros H. unfold classify_risk, HIGH_CONFIDENCE_THRESHOLD.
    destruct (Z.geb_spec 0 (match_threshold self)); [lia | reflexivity].
  - intros H. unfold classify_risk, HIGH_CONFIDENCE_THRESHOLD.
    destruct (Z.geb_spec 0 (match_threshold self)); [reflexivity | lia].
Qed.

(** C9, counterexample: with [match_threshold = 0] the empty-candidate
    result (score 0) is classified Medium, not High. *)
Lemma fuzzy_match_empty_high_cex :
  fuzzy_match_item_inst (PStr (pys "Zimmer Hip Stem")) [] = Ok (PStr NO_MATCH_FOUND, 0) /\
  snd (classify_risk (mkEngine 0) 0) = RISK_MEDIUM /\ RISK_MEDIUM <> RISK_HIGH.
Proof. split; [reflexivity | split; [reflexivity | discriminate]]. Qed.

(** ** Validation in [reconcile] *)

Lemma missing_columns_spec : forall df req c,
  In c (missing_columns df req) <-> In c req /\ ~ In c (df_columns df).
Proof.
  intros df req c. unfold missing_columns.
  rewrite filter_In, negb_true_iff.
  split.
  - intros [Hin Hex]. split; [exact Hin |].
    intros Hc.
    assert (existsb (String.eqb c) (df_columns df) = true) as Ht.
    { apply existsb_exists. exists c. split; [exact Hc | apply String.eqb_refl]. }
    congruence.
  - intros [Hin Hc]. split; [exact Hin |].
    destruct (existsb (String.eqb c) (df_columns df)) eqn:E; [| reflexivity].
    apply existsb_exists in E as [c' [Hc' Heq]].
    apply String.eqb_eq in Heq. subst c'. contradiction.
Qed.

(** C4 (as amended): [reconcile] checks the invoice table first.  An empty
    invoice table (no rows or no columns) raises
    ["Invalid invoice data: DataFrame is empty"]; a non-empty one missing
    required columns raises an error naming exactly those columns.  Only a
    valid invoice table lets the clinical table be checked, with the same two
    outcomes.  In every case the error is raised before any row is matched,
    no result is returned and the engine comes back unchanged. *)
Theorem reconcile_validation :
  forall py_lower py_isspace float_repr scorer (self : engine) inv clin,
  let rec := reconcile py_lower py_isspace float_repr scorer inv clin in
  (forall c, In c (missing_columns inv INVOICE_REQUIRED) <->
             In c INVOICE_REQUIRED /\ ~ In c (df_columns inv)) /\
  (forall c, In c (missing_columns clin CLINICAL_REQUIRED) <->
             In c CLINICAL_REQUIRED /\ ~ In c (df_columns clin)) /\
  (df_empty inv = true ->
     rec self = (Err (ValidationError "Invalid invoice data" (Some DataFrameEmpty)), self)) /\
  (df_empty inv = false -> missing_columns inv INVOICE_REQUIRED <> [] ->
     rec self = (Err (ValidationError "Invalid invoice data"
                        (Some (MissingColumns (missing_columns inv INVOICE_REQUIRED)))), self)) /\
  (df_empty inv = false -> missing_columns inv INVOICE_REQUIRED = [] ->
   df_empty clin = true ->
     rec self = (Err (ValidationError "Invalid clinical data" (Some DataFrameEmpty)), self)) /\
  (df_empty inv = false -> missing_columns inv INVOICE_REQUIRED = [] ->
   df_empty clin = false -> missing_columns clin CLINICAL_REQUIRED <> [] ->
     rec self = (Err (ValidationError "Invalid clinical data"
                        (Some (MissingColumns (missing_columns clin CLINICAL_REQUIRED)))), self)).
Proof.
  intros py_lower py_isspace float_repr scorer self inv clin rec.
  subst rec. unfold reconcile, validate_dataframe, INVOICE_REQUIRED, CLINICAL_REQUIRED.
  split; [intros c; apply missing_columns_spec |].
  split; [intros c; apply missing_columns_spec |].
  repeat split; intros.
  - rewrite H. reflexivity.
  - rewrite H. destruct (missing_columns inv _); [contradiction | reflexivity].
  - rewrite H, H0, H1. reflexivity.
  - rewrite H, H0, H1. destruct (missing_columns clin _); [contradiction | reflexivity].
Qed.

(** C4, counterexample: an invoice table with no rows and no [Unit_Cost]
    column is rejected with "DataFrame is empty", which names no column,
    although [Unit_Cost] is missing. *)
Lemma reconcile_validation_cex :
  let inv := mkDataFrame [INV_PO_NUMBER; INV_VENDOR_ITEM] [] in
  let clin := mkDataFrame [CLIN_CLINICAL_ITEM]
                [fun _ => PStr (pys "stryker knee total")] in
  reconcile_inst inv clin (mkEngine 70)
    = (Err (ValidationError "Invalid invoice data" (Some DataFrameEmpty)), mkEngine 70) /\
  missing_columns inv INVOICE_REQUIRED = [INV_UNIT_COST].
Proof. split; reflexivity. Qed.

(** ** Matching and the row loop *)

Section EngineProps.

Variable py_lower : Z -> list Z.
Variable py_isspace : Z -> bool.
Variable float_repr : float -> pystr.
Variable scorer : pystr -> pystr -> Q.

Local Abbreviation norm := (normalize_text py_lower py_isspace float_repr).
Local Abbreviation fmi := (fuzzy_match_item py_lower py_isspace float_repr scorer).
Local Abbreviation row_step := (reconcile_row py_lower py_isspace float_repr scorer).

Lemma pystr_eqb_eq : forall a b, pystr_eqb a b = true <-> a = b.
Proof.
  induction a as [| x a IH]; destruct b as [| y b]; simpl;
    try (split; congruence).
  rewrite andb_true_iff, Z.eqb_eq, IH. split.
  - intros [-> ->]. reflexivity.
  - intros H. injection H as -> ->. split; reflexivity.
Qed.

Lemma extract_aux_in : forall q l best m s,
  extract_aux scorer q l best = Some (m, s) -> In m l \/ best = Some (m, s).
Proof.
  intros q l. induction l as [| c l IH]; simpl; intros best m s H.
  - right. exact H.
  - destruct (_ && _).
    + apply IH in H as [H | H]; [left; right; exact H | left; left; congruence].
    + apply IH in H as [H | H]; [left; right; exact H | right; exact H].
Qed.

Lemma list_index_in : forall x l, In x l ->
  exists i, list_index x l = Ok i /\ (i < List.length l)%nat.
Proof.
  intros x l. induction l as [| y l IH]; simpl; [contradiction |].
  intros Hin. destruct (pystr_eqb x y) eqn:E.
  - exists 0%nat. split; [reflexivity | lia].
  - destruct Hin as [-> | Hin].
    + assert (pystr_eqb x x = true) by (apply pystr_eqb_eq; reflexivity). congruence.
    + destruct (IH Hin) as [i [-> Hi]]. exists (S i). split; [reflexivity | lia].
Qed.

Lemma list_get_lt : forall A (xs : list A) i, (i < List.length xs)%nat ->
  exists a, list_get xs i = Ok a /\ nth_error xs i = Some a.
Proof.
  intros A xs i Hi. unfold list_get.
  destruct (nth_error xs i) eqn:E.
  - exists a. split; reflexivity.
  - apply nth_error_None in E. lia.
Qed.

(** [fuzzy_match_item] never raises. *)
Lemma fuzzy_match_item_ok : forall q cands, exists m s, fmi q cands = Ok (m, s).
Proof.
  intros q cands. unfold fuzzy_match_item, extractOne.
  destruct (extract_aux scorer _ _ None) as [[m s] |] eqn:E.
  - apply extract_aux_in in E as [Hin | E]; [| discriminate].
    destruct (list_index_in _ _ Hin) as [i [-> Hi]].
    rewrite length_map in Hi.
    destruct (list_get_lt _ cands i Hi) as [a [Ha _]].
    simpl. rewrite Ha. exists a, (round_half_even s). reflexivity.
  - exists (PStr NO_MATCH_FOUND), 0. reflexivity.
Qed.

Lemma reconcile_row_ok : forall descs row self,
  num_val (row INV_UNIT_COST) <> None ->
  exists m, row_step descs row self = (Ok m, self) /\
    mr_po_number m = row INV_PO_NUMBER /\
    mr_vendor_item m = row INV_VENDOR_ITEM /\
    mr_cost_at_risk m = row INV_UNIT_COST /\
    format_currency (row INV_UNIT_COST) = Ok (mr_unit_cost m).
Proof.
  intros descs row self Hnum.
  destruct (fuzzy_match_item_ok (row INV_VENDOR_ITEM) descs) as [m [s Hm]].
  unfold reconcile_row, bind, lift, get_self, ret. rewrite Hm.
  destruct (classify_risk self s) as [status risk].
  unfold format_currency, format_2f.
  destruct (row INV_UNIT_COST); [exfalso; apply Hnum; reflexivity | | |];
    eexists; (split; [reflexivity | repeat split]).
Qed.

Lemma Forall2_nth_left : forall A B (P : A -> B -> Prop) l1 l2 i x,
  Forall2 P l1 l2 -> nth_error l1 i = Some x ->
  exists y, nth_error l2 i = Some y /\ P x y.
Proof.
  intros A B P l1 l2 i x HF. revert i.
  induction HF as [| a b l1 l2 Hab HF IH]; intros i Hi.
  - destruct i; discriminate.
  - destruct i as [| i]; simpl in *.
    + injection Hi as <-. exists b. split; [reflexivity | exact Hab].
    + apply IH. exact Hi.
Qed.

Lemma mapM_ok : forall A B (f : A -> M B) (l : list A) self,
  (forall x, In x l -> exists y, f x self = (Ok y, self)) ->
  exists ys, mapM f l self = (Ok ys, self) /\
             Forall2 (fun x y => f x self = (Ok y, self)) l ys.
Proof.
  intros A B f l self. induction l as [| x l IH]; intros H.
  - exists []. split; [reflexivity | constructor].
  - destruct (H x (or_introl eq_refl)) as [y Hy].
    destruct IH as [ys [Hys HF]]; [intros x' Hx'; apply H; right; exact Hx' |].
    exists (y :: ys). split.
    + simpl. unfold bind at 1. rewrite Hy. unfold bind. rewrite Hys. reflexivity.
    + constructor; assumption.
Qed.

(** Casting to a dtype never turns a number into text. *)
Lemma num_val_astype : forall d v, num_val v <> None -> num_val (astype_cell d v) <> None.
Proof. intros [] [] H; simpl; try discriminate; exact H. Qed.

Lemma num_val_iter_row : forall df r c,
  num_val (r c) <> None -> num_val (iter_row df r c) <> None.
Proof. intros df r c H. unfold iter_row. apply num_val_astype, num_val_astype, H. Qed.

(** C2: on tables that pass validation, with a number in the [Unit_Cost]
    cell of every invoice row, [reconcile] returns one result per invoice
    row, in the invoice order: the i-th result is the one computed from the
    i-th row as [df.iterrows()] yields it (each cell cast to the common
    dtype of the row), against the clinical descriptions
    [df_clinical[...].tolist()]; it carries that row's PO number, vendor
    item and cost. *)
Theorem reconcile_one_result_per_row : forall self inv clin,
  validate_dataframe inv INVOICE_REQUIRED = (true, None) ->
  validate_dataframe clin CLINICAL_REQUIRED = (true, None) ->
  (forall r, In r (df_rows inv) -> num_val (r INV_UNIT_COST) <> None) ->
  exists res,
    reconcile py_lower py_isspace float_repr scorer inv clin self = (Ok res, self) /\
    List.length res = List.length (df_rows inv) /\
    forall i r, nth_error (df_rows inv) i = Some r ->
      exists m, nth_error res i = Some m /\
        row_step (column_values clin CLIN_CLINICAL_ITEM) (iter_row inv r) self = (Ok m, self) /\
        mr_po_number m = iter_row inv r INV_PO_NUMBER /\
        mr_vendor_item m = iter_row inv r INV_VENDOR_ITEM /\
        mr_cost_at_risk m = iter_row inv r INV_UNIT_COST.
Proof.
  intros self inv clin Hinv Hclin Hnum.
  set (descs := column_values clin CLIN_CLINICAL_ITEM).
  destruct (mapM_ok _ _ (row_step descs) (iterrows inv) self) as [res [Hres HF]].
  { intros x Hx. unfold iterrows in Hx. apply in_map_iff in Hx as [r [<- Hr]].
    destruct (reconcile_row_ok descs (iter_row inv r) self
                (num_val_iter_row inv r _ (Hnum r Hr))) as [m [Hm _]].
    exists m. exact Hm. }
  exists res. split; [| split].
  - unfold reconcile. unfold INVOICE_REQUIRED, CLINICAL_REQUIRED in *.
    rewrite Hinv, Hclin. simpl. fold descs.
    unfold bind. rewrite Hres. reflexivity.
  - rewrite <- (Forall2_length HF). unfold iterrows. apply length_map.
  - intros i r Hr.
    assert (Hr' : nth_error (iterrows inv) i = Some (iter_row inv r))
      by (unfold iterrows; rewrite nth_error_map, Hr; reflexivity).
    destruct (Forall2_nth_left _ _ _ _ _ _ _ HF Hr') as [m [Hm Hstep]].
    destruct (reconcile_row_ok descs (iter_row inv r) self
                (num_val_iter_row inv r _ (Hnum r (nth_error_In _ _ Hr))))
      as [m' [Hm' [Hpo [Hv [Hc _]]]]].
    rewrite Hstep in Hm'. injection Hm' as <-.
    exists m. repeat split; assumption.
Qed.

(** [fuzz.token_sort_ratio] scores are never negative. *)
Hypothesis scorer_nonneg : forall a b, (0 <= scorer a b)%Q.

Lemma Qle_bool_false : forall a b, Qle_bool a b = false -> (b < a)%Q.
Proof.
  intros a b H. apply Qnot_le_lt. intros Hle.
  apply Qle_bool_iff in Hle. congruence.
Qed.

Lemma extract_aux_some : forall q xs b sb m sm,
  extract_aux scorer q xs (Some (b, sb)) = Some (m, sm) ->
  ((m, sm) = (b, sb) /\ forall x, In x xs -> (scorer q x <= sb)%Q) \/
  (exists j, nth_error xs j = Some m /\ sm = scorer q m /\ (sb < sm)%Q /\
     (forall x, In x xs -> (scorer q x <= sm)%Q) /\
     (forall k x, (k < j)%nat -> nth_error xs k = Some x -> (scorer q x < sm)%Q)).
Proof.
  intros q xs. induction xs as [| x xs IH]; simpl; intros b sb m sm H.
  - left. split; [congruence | contradiction].
  - pose proof (scorer_nonneg q x) as Hx.
    rewrite (proj2 (Qle_bool_iff _ _) Hx) in H. simpl in H.
    destruct (Qle_bool (scorer q x) sb) eqn:Eb; simpl in H.
    + apply Qle_bool_iff in Eb.
      apply IH in H as [[Heq Hall] | [j [Hj [Hsm [Hlt [Hall Hfirst]]]]]].
      * left. split; [exact Heq |].
        intros y [<- | Hy]; [exact Eb | apply Hall; exact Hy].
      * right. exists (S j).
        split; [exact Hj |]. split; [exact Hsm |]. split; [exact Hlt |]. split.
        -- intros y [<- | Hy]; [lra | apply Hall; exact Hy].
        -- intros [| k] y Hk Hy; simpl in Hy.
           ++ injection Hy as <-. lra.
           ++ apply (Hfirst k); [lia | exact Hy].
    + apply Qle_bool_false in Eb.
      right. apply IH in H as [[Heq Hall] | [j [Hj [Hsm [Hlt [Hall Hfirst]]]]]].
      * injection Heq as -> ->. exists 0%nat.
        split; [reflexivity |]. split; [reflexivity |]. split; [exact Eb |]. split.
        -- intros y [<- | Hy]; [lra | apply Hall; exact Hy].
        -- intros k y Hk. lia.
      * exists (S j).
        split; [exact Hj |]. split; [exact Hsm |]. split; [lra |]. split.
        -- intros y [<- | Hy]; [lra | apply Hall; exact Hy].
        -- intros [| k] y Hk Hy; simpl in Hy.
           ++ injection Hy as <-. lra.
           ++ apply (Hfirst k); [lia | exact Hy].
Qed.

(** [extractOne] on a non-empty list: the first choice of highest score,
    with its score rounded. *)
Lemma extractOne_first_max : forall q xs, xs <> [] ->
  exists j m, extractOne scorer q xs = Some (m, round_half_even (scorer q m)) /\
    nth_error xs j = Some m /\
    (forall x, In x xs -> (scorer q x <= scorer q m)%Q) /\
    (forall k x, (k < j)%nat -> nth_error xs k = Some x -> (scorer q x < scorer q m)%Q).
Proof.
  intros q [| x xs] Hne; [contradiction |].
  unfold extractOne. simpl.
  pose proof (scorer_nonneg q x) as Hx.
  rewrite (proj2 (Qle_bool_iff _ _) Hx). simpl.
  destruct (extract_aux scorer q xs (Some (x, scorer q x))) as [[m sm] |] eqn:E.
  - apply extract_aux_some in E as [[Heq Hall] | [j [Hj [Hsm [Hlt [Hall Hfirst]]]]]].
    + injection Heq as -> ->. exists 0%nat, x. split; [reflexivity |].
      split; [reflexivity |]. split.
      * intros y [<- | Hy]; [apply Qle_refl | apply Hall; exact Hy].
      * intros k y Hk. lia.
    + subst sm. exists (S j), m. split; [reflexivity |]. split; [exact Hj |]. split.
      * intros y [<- | Hy]; [lra | apply Hall; exact Hy].
      * intros [| k] y Hk Hy; simpl in Hy.
        -- injection Hy as <-. exact Hlt.
        -- apply (Hfirst k); [lia | exact Hy].
  - exfalso. clear - E. revert E. generalize (x, scorer q x) as p.
    induction xs as [| y xs IH]; simpl; intros p E; [discriminate |].
    destruct (_ && _); apply IH in E; exact E.
Qed.

Lemma list_index_first : forall x l i, list_index x l = Ok i ->
  nth_error l i = Some x /\ forall k, (k < i)%nat -> nth_error l k <> Some x.
Proof.
  intros x l. induction l as [| y l IH]; simpl; intros i H; [discriminate |].
  destruct (pystr_eqb x y) eqn:E.
  - injection H as <-. apply pystr_eqb_eq in E. subst y.
    split; [reflexivity | intros k Hk; lia].
  - destruct (list_index x l) as [i' |] eqn:Ei; simpl in H; [| discriminate].
    injection H as <-. destruct (IH i' eq_refl) as [Hn Hk].
    split; [exact Hn |].
    intros [| k] Hlt; simpl.
    + intros Heq. injection Heq as ->.
      assert (pystr_eqb x x = true) by (apply pystr_eqb_eq; reflexivity). congruence.
    + apply Hk. lia.
Qed.

(** C3: for a non-empty candidate list, [fuzzy_match_item] returns the
    original (not normalized) text of the first candidate, in input order,
    whose normalized form has the highest score against the normalized
    query (scores compared as the scorer returns them), together with that
    score rounded to an integer. *)
Theorem fuzzy_match_first_best : forall q cands, cands <> [] ->
  exists j c,
    nth_error cands j = Some c /\
    fuzzy_match_item py_lower py_isspace float_repr scorer q cands
      = Ok (c, round_half_even (scorer (norm q) (norm c))) /\
    (forall c', In c' cands -> (scorer (norm q) (norm c') <= scorer (norm q) (norm c))%Q) /\
    (forall k c', (k < j)%nat -> nth_error cands k = Some c' ->
       (scorer (norm q) (norm c') < scorer (norm q) (norm c))%Q).
Proof.
  intros q cands Hne.
  assert (Hne' : map norm cands <> []) by (destruct cands; [contradiction | discriminate]).
  destruct (extractOne_first_max (norm q) _ Hne') as [j [m [Hex [Hj [Hall Hfirst]]]]].
  destruct (nth_error cands j) as [c |] eqn:Ec;
    [| rewrite nth_error_map, Ec in Hj; discriminate].
  rewrite nth_error_map, Ec in Hj. injection Hj as Hm. subst m.
  assert (Hin : In (norm c) (map norm cands)) by (apply in_map, (nth_error_In _ _ Ec)).
  destruct (list_index_in _ _ Hin) as [i [Hi _]].
  destruct (list_index_first _ _ _ Hi) as [Hni Hbefore].
  assert (i = j) as ->.
  { destruct (Nat.lt_total i j) as [Hlt | [Heq | Hgt]]; [| exact Heq |].
    - exfalso. rewrite nth_error_map in Hni.
      destruct (nth_error cands i) as [c'' |] eqn:E''; [| discriminate].
      injection Hni as Hn''.
      specialize (Hfirst i (norm c'') Hlt). rewrite nth_error_map, E'' in Hfirst.
      specialize (Hfirst eq_refl). rewrite Hn'' in Hfirst. exact (Qlt_irrefl _ Hfirst).
    - exfalso. apply (Hbefore j Hgt). rewrite nth_error_map, Ec. reflexivity. }
  exists j, c. repeat split.
  - exact Ec.
  - unfold fuzzy_match_item. rewrite Hex. simpl. rewrite Hi. simpl.
    unfold list_get. rewrite Ec. reflexivity.
  - intros c' Hc'. apply Hall, in_map, Hc'.
  - intros k c' Hk Hc'. apply (Hfirst k); [exact Hk |].
    rewrite nth_error_map, Hc'. reflexivity.
Qed.

(** *** Whitespace normalisation *)

Local Abbreviation nw := (norm_ws py_isspace).

Lemma split_norm_ws : forall s w ws, split_aux py_isspace s = (w, ws) ->
  nw true false s = w ++ sep_join ws /\
  nw true true s = (match w with [] => [] | _ => SPACE :: w end) ++ sep_join ws /\
  nw false false s = w ++ (match w with [] => py_join ws | _ => sep_join ws end).
Proof.
  induction s as [| c s IH]; simpl; intros w ws H.
  - injection H as <- <-. repeat split.
  - destruct (split_aux py_isspace s) as [w' ws'] eqn:E.
    destruct (IH w' ws' eq_refl) as [H1 [H2 H3]].
    destruct (py_isspace c); injection H as <- <-.
    + rewrite H2, H3. destruct w'; simpl; repeat split.
    + rewrite H1. repeat split.
Qed.

(** [' '.join(s.split())] is the single-pass form. *)
Lemma join_split_norm_ws : forall s, py_join (py_split py_isspace s) = nw false false s.
Proof.
  intros s. unfold py_split.
  destruct (split_aux py_isspace s) as [w ws] eqn:E.
  destruct (split_norm_ws s w ws E) as [_ [_ H3]].
  rewrite H3. destruct w; reflexivity.
Qed.

Lemma norm_ws_all_space : forall s b p, has_nonws py_isspace s = false -> nw b p s = [].
Proof.
  induction s as [| c s IH]; simpl; intros b p H; [reflexivity |].
  destruct (py_isspace c); simpl in H; [apply IH; exact H | discriminate].
Qed.

Lemma norm_ws_pending : forall s,
  nw true true s = if has_nonws py_isspace s then SPACE :: nw false false s else [].
Proof.
  induction s as [| c s IH]; simpl; [reflexivity |].
  destruct (py_isspace c); simpl; [exact IH | reflexivity].
Qed.

Lemma ends_ws_all_space : forall s, s <> [] -> has_nonws py_isspace s = false ->
  ends_ws py_isspace s = true.
Proof.
  induction s as [| c s IH]; intros Hne H; [contradiction |].
  simpl in H. destruct (py_isspace c) eqn:Ec; simpl in H; [| discriminate].
  destruct s as [| c' s']; [exact Ec |].
  change (ends_ws py_isspace (c' :: s') = true). apply IH; [discriminate | exact H].
Qed.

Lemma ends_ws_cons : forall c s, s <> [] -> ends_ws py_isspace (c :: s) = ends_ws py_isspace s.
Proof. intros c [| c' s] H; [contradiction | reflexivity]. Qed.

Lemma collapse_norm_ws : forall s,
  collapse_ws py_isspace true s =
    nw false false s ++ (if ends_ws py_isspace s && has_nonws py_isspace s then [SPACE] else []) /\
  collapse_ws py_isspace false s =
    nw true false s ++ (if ends_ws py_isspace s then [SPACE] else []).
Proof.
  induction s as [| c s [IHt IHf]]; [split; reflexivity |].
  destruct (list_eq_dec Z.eq_dec s []) as [-> | Hne].
  - simpl. destruct (py_isspace c); split; reflexivity.
  - rewrite ends_ws_cons by exact Hne. simpl.
    destruct (py_isspace c) eqn:Ec; simpl.
    + split; [exact IHt |].
      rewrite norm_ws_pending, IHt.
      destruct (has_nonws py_isspace s) eqn:Eh.
      * rewrite andb_true_r. reflexivity.
      * rewrite norm_ws_all_space by exact Eh.
        rewrite ends_ws_all_space by assumption. reflexivity.
    + rewrite IHf. rewrite andb_true_r. split; reflexivity.
Qed.

(** Python's [str.isspace] and [str.lower] on ASCII code points. *)
Hypothesis isspace_ascii : forall c, 0 <= c < 128 -> py_isspace c = unicode_isspace c.
Hypothesis lower_ascii : forall c, 0 <= c < 128 -> py_lower c = ascii_lower c.

Lemma space_isspace : py_isspace SPACE = true.
Proof. rewrite isspace_ascii; [reflexivity | unfold SPACE; lia]. Qed.

Lemma norm_ws_head : forall s,
  nw false false s = [] \/ exists c r, nw false false s = c :: r /\ c <> SPACE.
Proof.
  induction s as [| c s IH]; simpl; [left; reflexivity |].
  destruct (py_isspace c) eqn:Ec; [exact IH |].
  right. exists c, (nw true false s). split; [reflexivity |].
  intros ->. rewrite space_isspace in Ec. discriminate.
Qed.

Lemma norm_ws_last : forall s b p,
  nw b p s = [] \/ exists pre c, nw b p s = pre ++ [c] /\ c <> SPACE.
Proof.
  induction s as [| c s IH]; simpl; intros b p; [left; reflexivity |].
  destruct (py_isspace c) eqn:Ec; [apply IH |].
  right. assert (c <> SPACE) by (intros ->; rewrite space_isspace in Ec; discriminate).
  destruct (IH true false) as [-> | [pre [c' [-> Hc']]]].
  - destruct p; [exists [SPACE], c | exists [], c]; split; auto.
  - destruct p; [exists (SPACE :: c :: pre), c' | exists (c :: pre), c']; split; auto.
Qed.

Lemma norm_ws_nonempty : forall s, has_nonws py_isspace s = true -> nw false false s <> [].
Proof.
  induction s as [| c s IH]; simpl; intros H; [discriminate |].
  destruct (py_isspace c); simpl in H; [apply IH; exact H | discriminate].
Qed.

Lemma strip_leading_app : forall m T, (m = [] \/ exists c r, m = c :: r /\ c <> SPACE) ->
  (m = [] -> T = []) -> strip_leading (m ++ T) = m ++ T.
Proof.
  intros m T [-> | [c [r [-> Hc]]]] HT.
  - rewrite HT by reflexivity. reflexivity.
  - simpl. destruct (Z.eqb_spec c SPACE); [contradiction | reflexivity].
Qed.

Lemma trim_core : forall m T,
  (m = [] \/ exists c r, m = c :: r /\ c <> SPACE) ->
  (m = [] \/ exists pre c, m = pre ++ [c] /\ c <> SPACE) ->
  (m = [] -> T = []) -> (T = [] \/ T = [SPACE]) ->
  trim (m ++ T) = m.
Proof.
  intros m T Hh Hl HT HT'. unfold trim. rewrite strip_leading_app by assumption.
  rewrite rev_app_distr.
  destruct Hl as [-> | [pre [c [-> Hc]]]].
  - rewrite HT by reflexivity. reflexivity.
  - rewrite rev_app_distr. simpl.
    assert (strip_leading (rev T ++ c :: rev pre) = c :: rev pre) as ->.
    { destruct HT' as [-> | ->]; simpl; try rewrite Z.eqb_refl; simpl;
        destruct (Z.eqb_spec c SPACE); try contradiction; reflexivity. }
    simpl. rewrite rev_involutive. reflexivity.
Qed.

(** Collapsing runs and trimming is the single-pass form. *)
Lemma trim_collapse_norm_ws : forall s,
  trim (collapse_ws py_isspace false s) = nw false false s.
Proof.
  intros [| c s]; [reflexivity |].
  simpl. destruct (py_isspace c) eqn:Ec.
  - destruct (collapse_norm_ws s) as [Ht _]. rewrite Ht.
    assert (trim (SPACE :: nw false false s ++
              (if ends_ws py_isspace s && has_nonws py_isspace s then [SPACE] else []))
            = trim (nw false false s ++
              (if ends_ws py_isspace s && has_nonws py_isspace s then [SPACE] else [])))
      as -> by (unfold trim; simpl; reflexivity).
    apply trim_core; [apply norm_ws_head | apply norm_ws_last | |].
    + intros Hm. destruct (has_nonws py_isspace s) eqn:Eh.
      * exfalso. exact (norm_ws_nonempty s Eh Hm).
      * rewrite andb_false_r. reflexivity.
    + destruct (_ && _); [right | left]; reflexivity.
  - destruct (collapse_norm_ws s) as [_ Hf]. rewrite Hf.
    change (trim ((c :: nw true false s) ++ (if ends_ws py_isspace s then [SPACE] else []))
            = c :: nw true false s).
    assert (Hc : c <> SPACE) by (intros ->; rewrite space_isspace in Ec; discriminate).
    apply trim_core.
    + right. exists c, (nw true false s). split; [reflexivity | exact Hc].
    + pose proof (norm_ws_last (c :: s) false false) as Hl. simpl in Hl. rewrite Ec in Hl.
      exact Hl.
    + discriminate.
    + destruct (ends_ws py_isspace s); [right | left]; reflexivity.
Qed.

(** *** Agreement with the ASCII builtins on ASCII text *)

Lemma str_lower_ascii : forall s, Forall (fun c => 0 <= c < 128) s ->
  str_lower py_lower s = str_lower ascii_lower s /\
  Forall (fun c => 0 <= c < 128) (str_lower ascii_lower s).
Proof.
  induction s as [| c s IH]; intros H; [split; [reflexivity | constructor] |].
  inversion H as [| ? ? Hc Hs]; subst. destruct (IH Hs) as [E F].
  unfold str_lower in *. simpl. rewrite lower_ascii by exact Hc. rewrite E.
  split; [reflexivity |]. apply Forall_app. split; [| exact F].
  unfold ascii_lower. destruct ((65 <=? c) && (c <=? 90)) eqn:R.
  - apply andb_true_iff in R as [R1 R2]. apply Z.leb_le in R1, R2.
    constructor; [lia | constructor].
  - constructor; [exact Hc | constructor].
Qed.

Lemma re_sub_ascii : forall x, Forall (fun c => 0 <= c < 128) x ->
  re_sub_special py_isspace x = re_sub_special unicode_isspace x /\
  Forall (fun c => 0 <= c < 128) (re_sub_special unicode_isspace x).
Proof.
  induction x as [| c x IH]; intros H; [split; [reflexivity | constructor] |].
  inversion H as [| ? ? Hc Hx]; subst. destruct (IH Hx) as [E F].
  unfold re_sub_special, keep_char in *. simpl. rewrite isspace_ascii by exact Hc.
  rewrite E. split; [reflexivity |].
  constructor; [| exact F].
  destruct (_ || _); [exact Hc | unfold SPACE; lia].
Qed.

Lemma split_aux_ascii : forall x, Forall (fun c => 0 <= c < 128) x ->
  split_aux py_isspace x = split_aux unicode_isspace x.
Proof.
  induction x as [| c x IH]; intros H; [reflexivity |].
  inversion H as [| ? ? Hc Hx]; subst. simpl.
  rewrite IH by exact Hx. rewrite isspace_ascii by exact Hc. reflexivity.
Qed.

Lemma normalize_ascii : forall s, Forall (fun c => 0 <= c < 128) s ->
  norm (PStr s) = normalize_text_inst (PStr s).
Proof.
  intros s H. unfold normalize_text_inst, normalize_text.
  destruct (str_lower_ascii s H) as [E1 F1]. rewrite E1.
  destruct (re_sub_ascii _ F1) as [E2 F2]. rewrite E2.
  unfold py_split. rewrite split_aux_ascii by exact F2. reflexivity.
Qed.

(** C6: on every string, [normalize_text] equals the transformation as
    specified (lowercase; every character outside a-z, 0-9 and whitespace
    replaced by a space; runs of whitespace collapsed into one space; both
    ends trimmed); and [normalize("Stryker KNEE!!") = normalize("stryker knee")]. *)
Theorem normalize_text_spec :
  (forall s, norm (PStr s) = normalize_spec py_lower py_isspace s) /\
  norm (PStr (pys "Stryker KNEE!!")) = norm (PStr (pys "stryker knee")).
Proof.
  split.
  - intros s. unfold normalize_text, normalize_spec.
    rewrite join_split_norm_ws, trim_collapse_norm_ws. reflexivity.
  - rewrite !normalize_ascii.
    + reflexivity.
    + apply Forall_forall. intros c Hc. vm_compute in Hc.
      repeat destruct Hc as [<- | Hc]; try lia; contradiction.
    + apply Forall_forall. intros c Hc. vm_compute in Hc.
      repeat destruct Hc as [<- | Hc]; try lia; contradiction.
Qed.

(** *** Idempotence *)

Lemma split_aux_words : forall x w ws, split_aux py_isspace x = (w, ws) ->
  (forall c, In c w -> In c x /\ py_isspace c = false) /\ Forall (word_ok py_isspace x) ws.
Proof.
  induction x as [| c x IH]; simpl; intros w ws H.
  - injection H as <- <-. split; [contradiction | constructor].
  - destruct (split_aux py_isspace x) as [w' ws'] eqn:E.
    destruct (IH w' ws' eq_refl) as [Hw' Hws'].
    assert (Hweak : Forall (word_ok py_isspace (c :: x)) ws').
    { eapply Forall_impl; [| exact Hws'].
      intros v [Hne Hv]. split; [exact Hne |].
      intros d Hd. destruct (Hv d Hd). split; [right |]; assumption. }
    destruct (py_isspace c) eqn:Ec; injection H as <- <-.
    + split; [contradiction |].
      destruct w' as [| d w'']; [exact Hweak |].
      constructor; [| exact Hweak].
      split; [discriminate |]. intros e He. destruct (Hw' e He). split; [right |]; assumption.
    + split; [| exact Hweak].
      intros d [<- | Hd]; [split; [left; reflexivity | exact Ec] |].
      destruct (Hw' d Hd). split; [right |]; assumption.
Qed.

Lemma py_split_words : forall x, Forall (word_ok py_isspace x) (py_split py_isspace x).
Proof.
  intros x. unfold py_split.
  destruct (split_aux py_isspace x) as [w ws] eqn:E.
  destruct (split_aux_words x w ws E) as [Hw Hws].
  destruct w as [| d w']; [exact Hws |].
  constructor; [| exact Hws]. split; [discriminate | exact Hw].
Qed.

Lemma split_aux_app_word : forall w r w' ws',
  (forall c, In c w -> py_isspace c = false) ->
  split_aux py_isspace r = (w', ws') -> split_aux py_isspace (w ++ r) = (w ++ w', ws').
Proof.
  induction w as [| c w IH]; simpl; intros r w' ws' Hw Hr; [exact Hr |].
  rewrite (IH r w' ws') by (intros; auto).
  rewrite (Hw c (or_introl eq_refl)). reflexivity.
Qed.

Lemma split_aux_sep_join : forall ws,
  Forall (fun v => v <> [] /\ forall c, In c v -> py_isspace c = false) ws ->
  split_aux py_isspace (sep_join ws) = ([], ws).
Proof.
  induction ws as [| v vs IH]; intros H; [reflexivity |].
  inversion H as [| ? ? [Hne Hv] Hvs]; subst.
  unfold sep_join. simpl. fold (sep_join vs).
  rewrite (split_aux_app_word v (sep_join vs) [] vs Hv (IH Hvs)).
  rewrite app_nil_r, space_isspace. destruct v; [contradiction | reflexivity].
Qed.

Lemma split_join : forall ws,
  Forall (fun v => v <> [] /\ forall c, In c v -> py_isspace c = false) ws ->
  py_split py_isspace (py_join ws) = ws.
Proof.
  intros [| v vs] H; [reflexivity |].
  inversion H as [| ? ? [Hne Hv] Hvs]; subst.
  unfold py_split, py_join.
  rewrite (split_aux_app_word v (sep_join vs) [] vs Hv (split_aux_sep_join vs Hvs)).
  rewrite app_nil_r. destruct v; [contradiction | reflexivity].
Qed.

Lemma py_join_chars : forall ws c, In c (py_join ws) ->
  c = SPACE \/ exists v, In v ws /\ In c v.
Proof.
  intros [| v vs] c H; [contradiction |].
  unfold py_join, sep_join in H. apply in_app_or in H as [H | H].
  - right. exists v. split; [left; reflexivity | exact H].
  - apply in_flat_map in H as [v' [Hv' [<- | Hc]]]; [left; reflexivity |].
    right. exists v'. split; [right; exact Hv' | exact Hc].
Qed.

Lemma re_sub_keep : forall x c, In c (re_sub_special py_isspace x) -> keep_char py_isspace c = true.
Proof.
  intros x c H. unfold re_sub_special in H. apply in_map_iff in H as [d [<- _]].
  destruct (keep_char py_isspace d) eqn:E; [exact E |].
  unfold keep_char. rewrite space_isspace. apply orb_true_r.
Qed.

(** Characters of a normalized string: a-z, 0-9 and the space. *)
Lemma normalized_chars : forall s c, In c (norm (PStr s)) ->
  c = SPACE \/ (97 <= c <= 122) \/ (48 <= c <= 57).
Proof.
  intros s c H. simpl in H.
  apply py_join_chars in H as [-> | [v [Hv Hc]]]; [left; reflexivity |].
  pose proof (py_split_words (re_sub_special py_isspace (str_lower py_lower s))) as HW.
  rewrite Forall_forall in HW. destruct (HW v Hv) as [_ Hchars].
  destruct (Hchars c Hc) as [Hin Hsp].
  apply re_sub_keep in Hin. unfold keep_char in Hin. rewrite Hsp, orb_false_r in Hin.
  right. apply orb_true_iff in Hin as [Hin | Hin]; apply andb_true_iff in Hin as [H1 H2];
    apply Z.leb_le in H1, H2; [left | right]; lia.
Qed.

(** C7 (as amended): [normalize_text] is idempotent on strings, and returns
    any non-string value as [str(value)], without normalizing it. *)
Theorem normalize_text_idempotent_str :
  (forall s, norm (PStr (norm (PStr s))) = norm (PStr s)) /\
  (forall v, (forall s, v <> PStr s) -> norm v = py_str float_repr v).
Proof.
  split.
  - intros s.
    assert (Hch := normalized_chars s).
    remember (norm (PStr s)) as out eqn:Hout.
    assert (Hlow : str_lower py_lower out = out).
    { clear Hout. induction out as [| c out IH]; [reflexivity |].
      unfold str_lower. simpl. fold (str_lower py_lower out).
      rewrite IH by (intros d Hd; apply Hch; right; exact Hd).
      destruct (Hch c (or_introl eq_refl)) as [-> | [Hc | Hc]];
        rewrite lower_ascii by (unfold SPACE; lia); unfold ascii_lower;
        [reflexivity | |];
        destruct (Z.leb_spec 65 c), (Z.leb_spec c 90); simpl; try reflexivity; lia. }
    assert (Hsub : re_sub_special py_isspace out = out).
    { clear Hout Hlow. induction out as [| c out IH]; [reflexivity |].
      unfold re_sub_special. simpl. fold (re_sub_special py_isspace out).
      rewrite IH by (intros d Hd; apply Hch; right; exact Hd).
      destruct (Hch c (or_introl eq_refl)) as [-> | [Hc | Hc]]; unfold keep_char.
      - rewrite space_isspace, orb_true_r. reflexivity.
      - destruct (Z.leb_spec 97 c), (Z.leb_spec c 122); try lia. reflexivity.
      - destruct (Z.leb_spec 48 c), (Z.leb_spec c 57); try lia.
        rewrite orb_true_r. reflexivity. }
    simpl normalize_text at 1. rewrite Hlow, Hsub.
    rewrite Hout. simpl normalize_text.
    rewrite split_join; [reflexivity |].
    eapply Forall_impl; [| apply py_split_words].
    intros v [Hne Hv]. split; [exact Hne |]. intros c Hc. apply (Hv c Hc).
  - intros [t | b | z | q] Hv; [exfalso; exact (Hv t eq_refl) | reflexivity ..].
Qed.

End EngineProps.

(** ** Summary statistics *)

Lemma py_add_num : forall a b, num_val a <> None -> num_val b <> None ->
  exists v, py_add a b = Ok v /\ num_val v <> None.
Proof.
  intros [sa | [] | za | fa] [sb | [] | zb | fb] Ha Hb; simpl in Ha, Hb; try congruence;
    eexists; (split; [reflexivity | discriminate]).
Qed.

Lemma sum_from_num : forall xs acc, num_val acc <> None ->
  (forall x, In x xs -> num_val x <> None) ->
  exists v, sum_from acc xs = Ok v /\ num_val v <> None.
Proof.
  induction xs as [| x xs IH]; simpl; intros acc Hacc Hxs.
  - exists acc. split; [reflexivity | exact Hacc].
  - destruct (py_add_num acc x Hacc (Hxs x (or_introl eq_refl))) as [a [Ha Hna]].
    rewrite Ha. simpl.
    exact (IH a Hna (fun y Hy => Hxs y (or_intror Hy))).
Qed.

Lemma fill_na_num : forall v, num_val v <> None -> num_val (fill_na v) <> None.
Proof. intros v H. unfold fill_na. destruct (is_na v); [discriminate | exact H]. Qed.

Lemma object_sum_num : forall xs, (forall x, In x xs -> num_val x <> None) ->
  exists v, object_sum xs = Ok v /\ num_val v <> None.
Proof.
  intros xs H. unfold object_sum.
  assert (H' : forall x, In x (map fill_na xs) -> num_val x <> None).
  { intros x Hx. apply in_map_iff in Hx as [y [<- Hy]]. apply fill_na_num, H, Hy. }
  destruct (map fill_na xs) as [| x xs'].
  - exists (PInt 0). split; [reflexivity | discriminate].
  - apply sum_from_num; [apply H'; left; reflexivity | intros y Hy; apply H'; right; exact Hy].
Qed.

Lemma series_sum_dt_num : forall dt xs, (forall x, In x xs -> num_val x <> None) ->
  exists v, series_sum_dt dt xs = Ok v /\ num_val v <> None.
Proof.
  intros [] xs H; simpl; try (eexists; split; [reflexivity | discriminate]).
  exact (object_sum_num xs H).
Qed.

Lemma series_mean_dt_num : forall dt xs, (forall x, In x xs -> num_val x <> None) ->
  exists v, series_mean_dt dt xs = Ok v.
Proof.
  intros [] xs H; simpl; try (eexists; reflexivity).
  destruct (object_sum_num xs H) as [v [Hv Hn]]. rewrite Hv. simpl.
  destruct v; [contradiction Hn; reflexivity | | |]; eexists; reflexivity.
Qed.

Lemma series_sum_dt_nil : forall dt,
  series_sum_dt dt [] = Ok (PInt 0) \/ series_sum_dt dt [] = Ok (PFloat 0).
Proof. intros []; [left | right | left | left]; reflexivity. Qed.

Lemma num_val_astype_cell : forall dt v, num_val v <> None -> num_val (astype_cell dt v) <> None.
Proof. intros [] [] H; simpl; try discriminate; exact H. Qed.

Lemma summary_entry_num : forall dt rs l,
  (forall r, In r rs -> num_val (mr_cost_at_risk r) <> None) ->
  exists e, summary_entry dt rs l = Ok e /\
    se_count e = List.length (filter (fun r => String.eqb (mr_risk_level r) l) rs) /\
    (se_count e = 0%nat ->
       (se_total_amount e = PInt 0 \/ se_total_amount e = PFloat 0) /\ se_avg_amount e = PInt 0).
Proof.
  intros dt rs l Hnum. unfold summary_entry.
  remember (filter (fun r => String.eqb (mr_risk_level r) l) rs) as filtered eqn:Ef.
  assert (Hc : forall x, In x (map (fun r => astype_cell dt (mr_cost_at_risk r)) filtered) ->
                         num_val x <> None).
  { intros x Hx. apply in_map_iff in Hx as [r [<- Hr]]. apply num_val_astype_cell, Hnum.
    rewrite Ef in Hr. apply filter_In in Hr. apply Hr. }
  destruct (series_sum_dt_num dt _ Hc) as [total [Ht _]]. rewrite Ht. cbn [ebind].
  destruct (Nat.ltb_spec 0 (List.length filtered)) as [Hlt | Hge].
  - destruct (series_mean_dt_num dt _ Hc) as [avg Ha]. rewrite Ha. cbn [ebind].
    eexists. split; [reflexivity |]. split; [reflexivity |]. cbn. intros H0. lia.
  - cbn [ebind]. eexists. split; [reflexivity |]. split; [reflexivity |]. cbn. intros _.
    split; [| reflexivity].
    destruct filtered; [| simpl in Hge; lia].
    simpl in Ht. destruct (series_sum_dt_nil dt) as [E | E]; rewrite E in Ht;
      injection Ht as <-; auto.
Qed.

Lemma count_partition : forall rs,
  (forall r, In r rs -> In (mr_risk_level r) [RISK_HIGH; RISK_MEDIUM; RISK_LOW]) ->
  (List.length (filter (fun r => String.eqb (mr_risk_level r) RISK_HIGH) rs) +
   (List.length (filter (fun r => String.eqb (mr_risk_level r) RISK_MEDIUM) rs) +
    (List.length (filter (fun r => String.eqb (mr_risk_level r) RISK_LOW) rs) + 0)))%nat
  = List.length rs.
Proof.
  induction rs as [| r rs IH]; intros H; [reflexivity |].
  specialize (IH (fun r' Hr' => H r' (or_intror Hr'))).
  unfold RISK_HIGH, RISK_MEDIUM, RISK_LOW in *.
  destruct (H r (or_introl eq_refl)) as [E | [E | [E | []]]]; simpl; rewrite <- E; simpl; lia.
Qed.

Lemma generate_summary_stats_nonempty : forall results self, results <> [] ->
  generate_summary_stats results self =
    lift (summary_loop (infer_dtype (map mr_cost_at_risk results)) results
            [RISK_HIGH; RISK_MEDIUM; RISK_LOW]) self.
Proof. intros [| r rs] self H; [contradiction | reflexivity]. Qed.

(** C5: for every non-empty result collection whose rows carry one of the
    three risk levels and a numeric cost (as every row of [reconcile] does),
    [generate_summary_stats] returns one entry per tier, High, Medium and
    Low, in that order; an entry of count 0 has the total of an empty
    column (0 or 0.0) and the average 0 (the mean is not taken); the counts
    add up to the number of results.  The totals are float sums and need
    not add up to the sum of all costs (see the counterexample). *)
Theorem generate_summary_stats_partition : forall self results,
  results <> [] ->
  (forall r, In r results ->
     In (mr_risk_level r) [RISK_HIGH; RISK_MEDIUM; RISK_LOW] /\
     num_val (mr_cost_at_risk r) <> None) ->
  exists summary,
    generate_summary_stats results self = (Ok summary, self) /\
    map fst summary = [RISK_HIGH; RISK_MEDIUM; RISK_LOW] /\
    (forall l e, In (l, e) summary -> se_count e = 0%nat ->
       (se_total_amount e = PInt 0 \/ se_total_amount e = PFloat 0) /\
       se_avg_amount e = PInt 0) /\
    fold_right Nat.add 0%nat (map (fun p => se_count (snd p)) summary) = List.length results.
Proof.
  intros self results Hne H.
  assert (Hnum : forall r, In r results -> num_val (mr_cost_at_risk r) <> None)
    by (intros r Hr; apply H, Hr).
  set (dt := infer_dtype (map mr_cost_at_risk results)).
  destruct (summary_entry_num dt results RISK_HIGH Hnum) as [eH [EH [CH ZH]]].
  destruct (summary_entry_num dt results RISK_MEDIUM Hnum) as [eM [EM [CM ZM]]].
  destruct (summary_entry_num dt results RISK_LOW Hnum) as [eL [EL [CL ZL]]].
  exists [(RISK_HIGH, eH); (RISK_MEDIUM, eM); (RISK_LOW, eL)].
  split.
  { rewrite generate_summary_stats_nonempty by exact Hne. fold dt.
    unfold lift, summary_loop. rewrite EH, EM, EL. reflexivity. }
  split; [reflexivity |].
  split.
  - intros l e [He | [He | [He | []]]]; injection He as <- <-; assumption.
  - simpl. rewrite CH, CM, CL. exact (count_partition results (fun r Hr => proj1 (H r Hr))).
Qed.

(** C5, counterexample: with no results [generate_summary_stats] raises
    [KeyError('Risk_Level')]; and with the costs 4500.10 (High), 3200.20
    (Medium) and 1250.35 (High) the tier totals are the floats
    5750.450000000001, 3200.2 and 0.0, while the sum of all costs is
    8950.65: the exact values of the tier totals do not add up to it. *)
Lemma generate_summary_stats_partition_cex :
  generate_summary_stats [] (mkEngine DEFAULT_MATCH_THRESHOLD)
    = (Err (KeyError "Risk_Level"), mkEngine DEFAULT_MATCH_THRESHOLD) /\
  (exists summary,
     generate_summary_stats float_tier_results (mkEngine DEFAULT_MATCH_THRESHOLD)
       = (Ok summary, mkEngine DEFAULT_MATCH_THRESHOLD) /\
     map (fun p => se_total_amount (snd p)) summary
       = [PFloat 5750.450000000001%float; PFloat 3200.2%float; PFloat 0]) /\
  series_sum (map mr_cost_at_risk float_tier_results) = Ok (PFloat 8950.65%float) /\
  (exists q1 q2 qt,
     float_q 5750.450000000001%float = Some q1 /\ float_q 3200.2%float = Some q2 /\
     float_q 8950.65%float = Some qt /\ ~ (q1 + q2 == qt)%Q).
Proof.
  split; [reflexivity |].
  split; [eexists; split; vm_compute; reflexivity |].
  split; [vm_compute; reflexivity |].
  do 3 eexists. split; [reflexivity |]. split; [reflexivity |]. split; [reflexivity |].
  vm_compute. intros E. discriminate E.
Qed.

(** C8: a result whose [Cost_At_Risk] is text makes [Series.mean()] raise,
    and [generate_summary_stats], which has no handler, lets the
    [TypeError] reach its caller instead of degrading to a zero-valued
    entry. *)
Theorem generate_summary_stats_text_cost_raises :
  generate_summary_stats [text_cost_result] (mkEngine DEFAULT_MATCH_THRESHOLD) =
    (Err (TypeError "Could not convert to numeric"), mkEngine DEFAULT_MATCH_THRESHOLD).
Proof. reflexivity. Qed.

(** ** Witnesses *)

Lemma round_aux_nonneg : forall m e l,
  sf_nonneg (SpecFloat.binary_round_aux 53 1024 false m e l).
Proof.
  intros m e l. unfold SpecFloat.binary_round_aux.
  destruct (SpecFloat.shr_fexp _ _ _ _ _) as [r1 e1].
  destruct (SpecFloat.shr_fexp _ _ _ _ _) as [r2 e2].
  destruct (SpecFloat.shr_m r2); simpl; trivial.
  destruct (Z.leb _ _); simpl; trivial.
Qed.

Lemma mul100_nonneg : forall x, (0 <=? x)%float = true ->
  sf_nonneg (FloatOps.Prim2SF (x * 100)%float).
Proof.
  intros x H. rewrite FloatAxioms.leb_spec in H. rewrite FloatAxioms.mul_spec.
  unfold FloatAxioms.SF64mul.
  change (FloatOps.Prim2SF 100%float) with (SpecFloat.S754_finite false 7036874417766400 (-46)).
  destruct (FloatOps.Prim2SF x) as [s | s | | s m e]; simpl; trivial.
  destruct s; [discriminate H |]. apply round_aux_nonneg.
Qed.

Lemma ratio_of_sim_nonneg : forall sim, sf_nonneg (FloatOps.Prim2SF (ratio_of_sim sim)).
Proof.
  intros sim. unfold ratio_of_sim.
  destruct (0 <=? sim)%float eqn:E; [apply mul100_nonneg, E | vm_compute; exact I].
Qed.

Lemma sf_q_nonneg : forall f q, sf_nonneg f -> sf_q f = Some q -> (0 <= q)%Q.
Proof.
  intros [s | s | | s m e] q Hn Hq; simpl in Hq; try discriminate.
  - injection Hq as <-. apply Qle_refl.
  - simpl in Hn. subst s. injection Hq as <-. unfold mag_q.
    destruct e as [| p | p].
    + change 0%Q with (inject_Z 0). rewrite <- Zle_Qle. lia.
    + change 0%Q with (inject_Z 0). rewrite <- Zle_Qle. rewrite Z.pow_pos_fold.
      apply Z.mul_nonneg_nonneg; [lia | apply Z.pow_nonneg; lia].
    + unfold Qle; simpl; lia.
Qed.

Lemma token_sort_ratio_inst_nonneg : forall a b, (0 <= token_sort_ratio_inst a b)%Q.
Proof.
  intros a b. unfold token_sort_ratio_inst, token_sort_ratio_float, float_q.
  destruct (sf_q _) eqn:E; [| apply Qle_refl].
  eapply sf_q_nonneg; [apply ratio_of_sim_nonneg | exact E].
Qed.

Lemma reconcile_one_result_per_row_witness :
  exists res,
    reconcile_inst sample_invoice sample_clinical (mkEngine DEFAULT_MATCH_THRESHOLD)
      = (Ok res, mkEngine DEFAULT_MATCH_THRESHOLD) /\ List.length res = 2%nat.
Proof.
  destruct (reconcile_one_result_per_row ascii_lower unicode_isspace float_repr_inst
              token_sort_ratio_inst (mkEngine DEFAULT_MATCH_THRESHOLD)
              sample_invoice sample_clinical eq_refl eq_refl)
    as [res [Hres [Hlen _]]].
  { intros r Hr. simpl in Hr.
    destruct Hr as [<- | [<- | []]]; discriminate. }
  exists res. split; [exact Hres | rewrite Hlen; reflexivity].
Defined.

Lemma fuzzy_match_first_best_witness :
  (exists j c,
    nth_error [PStr (pys "abcx"); PStr (pys "abcdeyyyyyyyy")] j = Some c /\
    fuzzy_match_item_inst (PStr (pys "abcdefghij")) [PStr (pys "abcx"); PStr (pys "abcdeyyyyyyyy")]
    = Ok (c, round_half_even (token_sort_ratio_inst (normalize_text_inst (PStr (pys "abcdefghij")))
                                                   (normalize_text_inst c)))) /\
  fuzzy_match_item_inst (PStr (pys "abcdefghij")) [PStr (pys "abcx"); PStr (pys "abcdeyyyyyyyy")]
    = Ok (PStr (pys "abcdeyyyyyyyy"), 43).
Proof.
  split; [| vm_compute; reflexivity].
  destruct (fuzzy_match_first_best ascii_lower unicode_isspace float_repr_inst
              token_sort_ratio_inst token_sort_ratio_inst_nonneg
              (PStr (pys "abcdefghij")) [PStr (pys "abcx"); PStr (pys "abcdeyyyyyyyy")]
              ltac:(discriminate))
    as [j [c [Hj [Hc _]]]].
  exists j, c. split; [exact Hj | exact Hc].
Defined.

Lemma normalize_text_spec_witness :
  normalize_text_inst (PStr (pys "Stryker KNEE!!")) =
  normalize_text_inst (PStr (pys "stryker knee")).
Proof.
  exact (proj2 (normalize_text_spec ascii_lower unicode_isspace float_repr_inst
                  (fun c _ => eq_refl) (fun c _ => eq_refl))).
Defined.

Lemma normalize_text_idempotent_str_witness :
  normalize_text_inst (PStr (normalize_text_inst (PStr (pys "  Stryker-KNEE  system!")))) =
  normalize_text_inst (PStr (pys "  Stryker-KNEE  system!")).
Proof.
  exact (proj1 (normalize_text_idempotent_str ascii_lower unicode_isspace float_repr_inst
                  (fun c _ => eq_refl) (fun c _ => eq_refl)) _).
Defined.

(** C7, counterexample: [True] normalizes to ["True"], which normalizes to
    ["true"]. *)
Lemma normalize_text_idempotent_cex :
  normalize_text_inst (PBool true) = pys "True" /\
  normalize_text_inst (PStr (normalize_text_inst (PBool true))) = pys "true".
Proof. split; reflexivity. Qed.

Lemma generate_summary_stats_partition_witness :
  exists summary,
    generate_summary_stats [leak_result; review_result] (mkEngine DEFAULT_MATCH_THRESHOLD)
      = (Ok summary, mkEngine DEFAULT_MATCH_THRESHOLD) /\
    fold_right Nat.add 0%nat (map (fun p => se_count (snd p)) summary) = 2%nat.
Proof.
  destruct (generate_summary_stats_partition (mkEngine DEFAULT_MATCH_THRESHOLD)
              [leak_result; review_result] ltac:(discriminate))
    as [summary [E [_ [_ Hc]]]].
  { intros r [<- | [<- | []]]; split; simpl; auto; discriminate. }
  exists summary. split; [exact E | exact Hc].
Defined.

(** [classify_risk] is monotone in the score: raising the score never moves
    a row to a higher risk level (High, then Medium, then Low), whatever
    the engine's match threshold. *)
Theorem classify_risk_monotone : forall self s1 s2, s1 <= s2 ->
  (snd (classify_risk self s2) = RISK_HIGH -> snd (classify_risk self s1) = RISK_HIGH) /\
  (snd (classify_risk self s1) = RISK_LOW -> snd (classify_risk self s2) = RISK_LOW) /\
  (snd (classify_risk self s2) = RISK_MEDIUM -> snd (classify_risk self s1) <> RISK_LOW).
Proof.
  intros self s1 s2 Hle. unfold classify_risk, HIGH_CONFIDENCE_THRESHOLD.
  destruct (Z.geb_spec s1 90), (Z.geb_spec s2 90),
           (Z.geb_spec s1 (match_threshold self)), (Z.geb_spec s2 (match_threshold self));
    simpl; unfold RISK_HIGH, RISK_MEDIUM, RISK_LOW;
    repeat split; intros; try discriminate; try reflexivity; lia.
Qed.

Lemma classify_risk_levels : forall self s,
  In (snd (classify_risk self s)) [RISK_HIGH; RISK_MEDIUM; RISK_LOW].
Proof.
  intros self s. unfold classify_risk.
  destruct (s >=? _); [| destruct (s >=? _)]; simpl; auto.
Qed.

Lemma validate_dataframe_cases : forall df required_columns,
  (fst (validate_dataframe df required_columns) = true <->
     df_empty df = false /\ forall c, In c required_columns -> In c (df_columns df)) /\
  (snd (validate_dataframe df required_columns) = None <->
     fst (validate_dataframe df required_columns) = true).
Proof.
  intros df req. unfold validate_dataframe.
  destruct (df_empty df) eqn:Ee; simpl.
  - split; split; intros H; try discriminate; destruct H; discriminate.
  - destruct (missing_columns df req) as [| m ms] eqn:Em; simpl.
    + split; split; intros; try reflexivity; try (split; [reflexivity |]).
      intros c Hc. destruct (in_dec string_dec c (df_columns df)) as [Hin | Hout]; [exact Hin |].
      assert (Hm : In c (missing_columns df req)) by (apply missing_columns_spec; tauto).
      rewrite Em in Hm. contradiction.
    + split; split; intros H; try discriminate.
      destruct H as [_ Hall].
      assert (Hm : In m (missing_columns df req)) by (rewrite Em; left; reflexivity).
      apply missing_columns_spec in Hm as [Hr Hn]. exfalso. apply Hn, Hall, Hr.
Qed.

(** [validate_dataframe] reports success exactly when the DataFrame is not
    empty and has every required column, and it attaches an error message
    exactly when it reports failure. *)
Theorem validate_dataframe_valid_iff : forall df required_columns,
  (fst (validate_dataframe df required_columns) = true <->
     df_empty df = false /\ forall c, In c required_columns -> In c (df_columns df)) /\
  (snd (validate_dataframe df required_columns) = None <->
     fst (validate_dataframe df required_columns) = true).
Proof. exact validate_dataframe_cases. Qed.

Section Extra.

Variable py_lower : Z -> list Z.
Variable py_isspace : Z -> bool.
Variable float_repr : float -> pystr.
Variable scorer : pystr -> pystr -> Q.

Local Abbreviation norm := (normalize_text py_lower py_isspace float_repr).
Local Abbreviation fmi := (fuzzy_match_item py_lower py_isspace float_repr scorer).
Local Abbreviation row_step := (reconcile_row py_lower py_isspace float_repr scorer).
Local Abbreviation rec := (reconcile py_lower py_isspace float_repr scorer).

(** [' '.isspace()] *)
Hypothesis space_isspace_true : py_isspace SPACE = true.

Lemma re_sub_kept : forall x c,
  In c (re_sub_special py_isspace x) -> keep_char py_isspace c = true.
Proof.
  intros x c H. unfold re_sub_special in H. apply in_map_iff in H as [d [<- _]].
  destruct (keep_char py_isspace d) eqn:E; [exact E |].
  unfold keep_char. rewrite space_isspace_true. apply orb_true_r.
Qed.

(** Given that [' '.isspace()] holds, [normalize_text] of a string is a
    list of non-empty words joined by single spaces, each word made only of
    lowercase ASCII letters and ASCII digits. *)
Theorem normalize_text_words : forall s,
  exists ws, normalize_text py_lower py_isspace float_repr (PStr s) = py_join ws /\
    Forall (fun w => w <> [] /\ Forall (fun c => 97 <= c <= 122 \/ 48 <= c <= 57) w) ws.
Proof.
  intros s. simpl.
  set (x := re_sub_special py_isspace (str_lower py_lower s)).
  exists (py_split py_isspace x). split; [reflexivity |].
  eapply Forall_impl; [| apply py_split_words].
  intros w [Hne Hw]. split; [exact Hne |].
  apply Forall_forall. intros c Hc. destruct (Hw c Hc) as [Hin Hsp].
  apply re_sub_kept in Hin. unfold keep_char in Hin. rewrite Hsp, orb_false_r in Hin.
  apply orb_true_iff in Hin as [Hin | Hin]; apply andb_true_iff in Hin as [H1 H2];
    apply Z.leb_le in H1, H2; [left | right]; lia.
Qed.

Lemma list_index_nth : forall x l i, list_index x l = Ok i -> nth_error l i = Some x.
Proof.
  intros x l. induction l as [| y l IH]; simpl; intros i H; [discriminate |].
  destruct (pystr_eqb x y) eqn:E.
  - injection H as <-. apply pystr_eqb_eq in E. subst y. reflexivity.
  - destruct (list_index x l) as [i' |] eqn:Ei; simpl in H; [| discriminate].
    injection H as <-. apply IH. reflexivity.
Qed.

Lemma extract_aux_score : forall q l best m s,
  extract_aux scorer q l best = Some (m, s) ->
  (In m l /\ s = scorer q m) \/ best = Some (m, s).
Proof.
  intros q l. induction l as [| c l IH]; simpl; intros best m s H.
  - right. exact H.
  - destruct (_ && _).
    + apply IH in H as [H | H]; [left; split; [right |]; apply H |].
      injection H as <- <-. left. split; [left |]; reflexivity.
    + apply IH in H as [H | H]; [left; split; [right |]; apply H | right; exact H].
Qed.

(** [fuzzy_match_item] never raises: it returns either the sentinel
    ['No Match Found'] with score 0, or one of the candidates with the
    score of its normalized text against the normalized query, rounded to
    an integer. *)
Theorem fuzzy_match_item_result : forall q cands,
  fuzzy_match_item py_lower py_isspace float_repr scorer q cands = Ok (PStr NO_MATCH_FOUND, 0) \/
  exists c, In c cands /\
    fuzzy_match_item py_lower py_isspace float_repr scorer q cands
      = Ok (c, round_half_even (scorer (norm q) (norm c))).
Proof.
  intros q cands. unfold fuzzy_match_item, extractOne.
  destruct (extract_aux scorer _ _ None) as [[m s] |] eqn:E; [| left; reflexivity].
  right.
  apply extract_aux_score in E as [[Hin ->] | E]; [| discriminate].
  destruct (list_index_in _ _ Hin) as [i [Hi Hlt]].
  pose proof (list_index_nth _ _ _ Hi) as Hn. simpl. rewrite Hi. simpl.
  rewrite length_map in Hlt.
  destruct (list_get_lt _ cands i Hlt) as [a [Ha Hna]]. rewrite Ha. simpl.
  exists a. split; [exact (nth_error_In _ _ Hna) |].
  rewrite nth_error_map, Hna in Hn. simpl in Hn. injection Hn as <-. reflexivity.
Qed.

Lemma format_2f_text : forall v e, format_2f v = Err e ->
  num_val v = None /\ e = ValueError "Unknown format code 'f' for object of type 'str'".
Proof. intros [] e H; simpl in H; try discriminate. injection H as <-. split; reflexivity. Qed.

Lemma format_2f_num : forall v, num_val v <> None -> exists s, format_2f v = Ok s.
Proof. intros [] H; simpl; [contradiction H; reflexivity | | |]; eexists; reflexivity. Qed.

Lemma reconcile_row_cases : forall descs row self,
  exists name score,
    fmi (row INV_VENDOR_ITEM) descs = Ok (name, score) /\
    ((exists s, format_2f (row INV_UNIT_COST) = Ok s /\
       row_step descs row self =
         (Ok {| mr_po_number := row INV_PO_NUMBER;
                mr_vendor_item := row INV_VENDOR_ITEM;
                mr_clinical_match := name;
                mr_confidence_score := Z_to_pystr score ++ pys "%";
                mr_confidence_score_numeric := score;
                mr_unit_cost := pys "$" ++ s;
                mr_cost_at_risk := row INV_UNIT_COST;
                mr_status := fst (classify_risk self score);
                mr_risk_level := snd (classify_risk self score) |}, self)) \/
     (exists e, format_2f (row INV_UNIT_COST) = Err e /\ row_step descs row self = (Err e, self))).
Proof.
  intros descs row self.
  destruct (fuzzy_match_item_ok py_lower py_isspace float_repr scorer (row INV_VENDOR_ITEM) descs)
    as [name [score Hm]].
  exists name, score. split; [exact Hm |].
  unfold reconcile_row, bind, lift, get_self, ret. rewrite Hm.
  destruct (classify_risk self score) as [status risk] eqn:Ec.
  destruct (format_2f (row INV_UNIT_COST)) as [s | e].
  - left. exists s. split; reflexivity.
  - right. exists e. split; reflexivity.
Qed.

Lemma reconcile_row_state : forall descs row self, snd (row_step descs row self) = self.
Proof.
  intros descs row self.
  destruct (reconcile_row_cases descs row self) as [n [s [_ [[u [_ ->]] | [e [_ ->]]]]]];
    reflexivity.
Qed.

(** [reconcile_row] reads the row only at the three invoice labels. *)
Lemma reconcile_row_ext : forall descs r1 r2,
  r1 INV_PO_NUMBER = r2 INV_PO_NUMBER -> r1 INV_VENDOR_ITEM = r2 INV_VENDOR_ITEM ->
  r1 INV_UNIT_COST = r2 INV_UNIT_COST ->
  row_step descs r1 = row_step descs r2.
Proof. intros descs r1 r2 E1 E2 E3. unfold reconcile_row. rewrite E1, E2, E3. reflexivity. Qed.

Lemma mapM_state : forall A B (f : A -> M B) l self,
  (forall x s, snd (f x s) = s) -> snd (mapM f l self) = self.
Proof.
  intros A B f l self Hf. induction l as [| x l IH]; [reflexivity |].
  simpl. unfold bind at 1. specialize (Hf x self).
  destruct (f x self) as [[y | e] s'] eqn:E; simpl in Hf; subst s'; [| reflexivity].
  unfold bind. destruct (mapM f l self) as [[ys | e] s''] eqn:E'; simpl in IH; subst s''; reflexivity.
Qed.

Lemma mapM_app_ok : forall A B (f : A -> M B) l1 l2 r1 r2 self,
  (forall x s, snd (f x s) = s) ->
  mapM f l1 self = (Ok r1, self) -> mapM f l2 self = (Ok r2, self) ->
  mapM f (l1 ++ l2) self = (Ok (r1 ++ r2), self).
Proof.
  intros A B f l1 l2 r1 r2 self Hf. revert r1.
  induction l1 as [| x l1 IH]; intros r1 H1 H2.
  - simpl in H1. injection H1 as <-. exact H2.
  - simpl in H1 |- *. unfold bind at 1 in H1. unfold bind at 1.
    pose proof (Hf x self) as Hx.
    destruct (f x self) as [[y | e] s'] eqn:E; simpl in Hx; subst s'; [| discriminate].
    unfold bind in H1 |- *.
    pose proof (mapM_state _ _ f l1 self Hf) as Hs.
    destruct (mapM f l1 self) as [[ys | e] s''] eqn:E'; simpl in Hs; subst s''; [| discriminate].
    injection H1 as <-. rewrite (IH ys eq_refl H2). reflexivity.
Qed.

Lemma mapM_err : forall A B (f : A -> M B) l self e,
  (forall x, In x l -> (exists y, f x self = (Ok y, self)) \/ f x self = (Err e, self)) ->
  (exists x, In x l /\ f x self = (Err e, self)) ->
  mapM f l self = (Err e, self).
Proof.
  intros A B f l self e. induction l as [| x l IH]; intros Hall [x0 [Hin Hx0]]; [destruct Hin |].
  simpl. unfold bind at 1.
  destruct (Hall x (or_introl eq_refl)) as [[y Hy] | Hy]; rewrite Hy; [| reflexivity].
  unfold bind. rewrite IH; [reflexivity | intros; apply Hall; right; assumption |].
  destruct Hin as [<- | Hin]; [congruence |]. exists x0. split; assumption.
Qed.

Lemma mapM_map : forall A B C (f : B -> M C) (g : A -> B) l,
  mapM f (map g l) = mapM (fun x => f (g x)) l.
Proof.
  intros A B C f g l. induction l as [| x l IH]; simpl; [reflexivity |]. rewrite IH. reflexivity.
Qed.

Lemma mapM_ext_in : forall A B (f f' : A -> M B) l,
  (forall x, In x l -> f x = f' x) -> mapM f l = mapM f' l.
Proof.
  intros A B f f' l. induction l as [| x l IH]; intros H; simpl; [reflexivity |].
  rewrite (H x (or_introl eq_refl)), IH by (intros y Hy; apply H; right; exact Hy).
  reflexivity.
Qed.

Lemma reconcile_valid : forall inv clin self,
  validate_dataframe inv INVOICE_REQUIRED = (true, None) ->
  validate_dataframe clin CLINICAL_REQUIRED = (true, None) ->
  rec inv clin self =
    mapM (row_step (column_values clin CLIN_CLINICAL_ITEM)) (iterrows inv) self.
Proof.
  intros inv clin self Hi Hc. unfold reconcile. unfold INVOICE_REQUIRED, CLINICAL_REQUIRED in *.
  rewrite Hi, Hc. simpl. unfold bind.
  destruct (mapM _ _ self) as [[r | e] s]; reflexivity.
Qed.

Lemma reconcile_rows_fields : forall self inv clin,
  validate_dataframe inv INVOICE_REQUIRED = (true, None) ->
  validate_dataframe clin CLINICAL_REQUIRED = (true, None) ->
  (forall r, In r (df_rows inv) -> num_val (r INV_UNIT_COST) <> None) ->
  exists res,
    reconcile py_lower py_isspace float_repr scorer inv clin self = (Ok res, self) /\
    Forall2 (fun r m =>
        fuzzy_match_item py_lower py_isspace float_repr scorer (iter_row inv r INV_VENDOR_ITEM)
          (column_values clin CLIN_CLINICAL_ITEM)
          = Ok (mr_clinical_match m, mr_confidence_score_numeric m) /\
        mr_confidence_score m = Z_to_pystr (mr_confidence_score_numeric m) ++ pys "%" /\
        classify_risk self (mr_confidence_score_numeric m) = (mr_status m, mr_risk_level m) /\
        (exists s, format_2f (iter_row inv r INV_UNIT_COST) = Ok s /\ mr_unit_cost m = pys "$" ++ s) /\
        mr_cost_at_risk m = iter_row inv r INV_UNIT_COST /\
        mr_po_number m = iter_row inv r INV_PO_NUMBER /\
        mr_vendor_item m = iter_row inv r INV_VENDOR_ITEM)
      (df_rows inv) res.
Proof.
  intros self inv clin Hi Hc Hnum.
  rewrite reconcile_valid by assumption. unfold iterrows. rewrite mapM_map.
  set (descs := column_values clin CLIN_CLINICAL_ITEM).
  induction (df_rows inv) as [| r rows IH].
  - exists []. split; [reflexivity | constructor].
  - destruct IH as [res [Hres HF]]; [intros r' Hr'; apply Hnum; right; exact Hr' |].
    destruct (reconcile_row_cases descs (iter_row inv r) self)
      as [n [sc [Hm [[u [Hu Hs]] | [e [He _]]]]]];
      [| exfalso; apply format_2f_text in He as [He _];
         exact (num_val_iter_row inv r _ (Hnum r (or_introl eq_refl)) He)].
    eexists. split.
    + simpl. unfold bind at 1. rewrite Hs. unfold bind. rewrite Hres. reflexivity.
    + constructor; [| exact HF]. simpl.
      split; [exact Hm |]. split; [reflexivity |].
      split; [destruct (classify_risk self sc); reflexivity |].
      split; [exists u; split; [exact Hu | reflexivity] |].
      repeat split.
Qed.


Lemma astype_cell_text : forall d v, num_val v = None -> astype_cell d v = v.
Proof. intros [] [] H; try discriminate; reflexivity. Qed.

Lemma iter_row_text : forall df r c, num_val (r c) = None -> iter_row df r c = r c.
Proof.
  intros df r c H. unfold iter_row. rewrite (astype_cell_text _ (r c) H). apply astype_cell_text, H.
Qed.

(** On inputs that pass validation, one invoice row whose [Unit_Cost] is
    text makes [reconcile] raise the [ValueError] of the [:.2f] format (the
    whole run fails, no partial result), leaving the engine unchanged. *)
Theorem reconcile_text_unit_cost : forall self inv clin,
  validate_dataframe inv INVOICE_REQUIRED = (true, None) ->
  validate_dataframe clin CLINICAL_REQUIRED = (true, None) ->
  (exists r, In r (df_rows inv) /\ num_val (r INV_UNIT_COST) = None) ->
  reconcile py_lower py_isspace float_repr scorer inv clin self
    = (Err (ValueError "Unknown format code 'f' for object of type 'str'"), self).
Proof.
  intros self inv clin Hi Hc [r0 [Hr0 Hq0]].
  rewrite reconcile_valid by assumption.
  apply mapM_err.
  - intros x _. destruct (reconcile_row_cases (column_values clin CLIN_CLINICAL_ITEM) x self)
      as [n [sc [_ [[u [_ Hs]] | [e [He Hs]]]]]]; [left; eexists; exact Hs |].
    right. apply format_2f_text in He as [_ ->]. exact Hs.
  - exists (iter_row inv r0). split; [apply in_map, Hr0 |].
    destruct (reconcile_row_cases (column_values clin CLIN_CLINICAL_ITEM) (iter_row inv r0) self)
      as [n [sc [_ [[u [Hu _]] | [e [He Hs]]]]]].
    + rewrite iter_row_text in Hu by exact Hq0. destruct (r0 INV_UNIT_COST); discriminate.
    + apply format_2f_text in He as [_ ->]. exact Hs.
Qed.

Lemma validate_true : forall df req b e,
  validate_dataframe df req = (b, e) -> b = true -> validate_dataframe df req = (true, None).
Proof.
  intros df req b e H ->. pose proof (proj2 (validate_dataframe_cases df req)) as [_ Hn].
  rewrite H in Hn. simpl in Hn. rewrite (Hn eq_refl) in H. exact H.
Qed.

Lemma reconcile_ok_valid : forall inv clin self res s',
  rec inv clin self = (Ok res, s') ->
  validate_dataframe inv INVOICE_REQUIRED = (true, None) /\
  validate_dataframe clin CLINICAL_REQUIRED = (true, None).
Proof.
  intros inv clin self res s' H. unfold reconcile in H. unfold INVOICE_REQUIRED, CLINICAL_REQUIRED.
  destruct (validate_dataframe inv _) as [bi ei] eqn:Ei.
  destruct bi; simpl in H; [| discriminate].
  destruct (validate_dataframe clin _) as [bc ec] eqn:Ec.
  destruct bc; simpl in H; [| discriminate].
  pose proof (validate_true _ _ _ _ Ei eq_refl). pose proof (validate_true _ _ _ _ Ec eq_refl).
  split; congruence.
Qed.

Lemma validate_concat : forall cols rows1 rows2 req, rows1 <> [] ->
  validate_dataframe (mkDataFrame cols (rows1 ++ rows2)) req =
  validate_dataframe (mkDataFrame cols rows1) req.
Proof.
  intros cols [| r rows1] rows2 req H; [contradiction | reflexivity].
Qed.

Lemma validate_rows : forall df req, validate_dataframe df req = (true, None) -> df_rows df <> [].
Proof.
  intros [cols rows] req H Hr. simpl in Hr. subst rows.
  unfold validate_dataframe, df_empty in H. simpl in H. discriminate.
Qed.

Lemma validate_cols : forall df req, validate_dataframe df req = (true, None) ->
  forall c, In c req -> In c (df_columns df).
Proof.
  intros df req H. apply (proj1 (proj1 (validate_dataframe_cases df req))). rewrite H. reflexivity.
Qed.


Lemma infer_dtype_nonempty : forall xs, xs <> [] ->
  infer_dtype xs =
    if existsb is_str xs then DObject
    else if forallb is_bool xs then DBool
    else if existsb is_bool xs then DObject
    else if existsb is_float xs then DFloat64
    else DInt64.
Proof. intros [| x xs] H; [contradiction | reflexivity]. Qed.

Lemma infer_dtype_app : forall xs ys, xs <> [] -> ys <> [] ->
  infer_dtype xs = infer_dtype ys -> infer_dtype (xs ++ ys) = infer_dtype xs.
Proof.
  intros xs ys Hx Hy E.
  assert (Hxy : xs ++ ys <> []) by (intros H; apply app_eq_nil in H; tauto).
  rewrite (infer_dtype_nonempty _ Hx), (infer_dtype_nonempty _ Hy) in E.
  rewrite (infer_dtype_nonempty _ Hxy), (infer_dtype_nonempty _ Hx).
  rewrite !existsb_app, forallb_app.
  destruct (existsb is_str xs), (forallb is_bool xs), (existsb is_bool xs), (existsb is_float xs),
           (existsb is_str ys), (forallb is_bool ys), (existsb is_bool ys), (existsb is_float ys);
    simpl in *; congruence.
Qed.

Lemma df_dtype_concat : forall cols rows1 rows2 c, rows1 <> [] -> rows2 <> [] ->
  df_dtype (mkDataFrame cols rows1) c = df_dtype (mkDataFrame cols rows2) c ->
  df_dtype (mkDataFrame cols (rows1 ++ rows2)) c = df_dtype (mkDataFrame cols rows1) c.
Proof.
  intros cols rows1 rows2 c H1 H2 E. unfold df_dtype, column_cells in *. cbn [df_rows] in *.
  rewrite map_app. apply infer_dtype_app; [| | exact E];
    intros Hn; apply map_eq_nil in Hn; contradiction.
Qed.

Lemma iter_row_same_dtypes : forall df1 df2 r c,
  df_columns df1 = df_columns df2 ->
  (forall c', In c' (df_columns df1) -> df_dtype df1 c' = df_dtype df2 c') ->
  In c (df_columns df1) -> iter_row df1 r c = iter_row df2 r c.
Proof.
  intros df1 df2 r c Ec Hd Hc. unfold iter_row, row_dtype.
  rewrite <- Ec, (map_ext_in (df_dtype df1) (df_dtype df2) (df_columns df1) Hd), Hd by exact Hc.
  reflexivity.
Qed.

(** [reconcile] works row by row: if it succeeds on two invoice tables with
    the same columns, each column with the same dtype in both (so that
    concatenating them changes no dtype), against the same clinical table,
    it succeeds on their concatenation, and its result is the
    concatenation of the two results. *)
Theorem reconcile_concat : forall self cols rows1 rows2 clin res1 res2,
  (forall c, In c cols ->
     df_dtype (mkDataFrame cols rows1) c = df_dtype (mkDataFrame cols rows2) c) ->
  reconcile py_lower py_isspace float_repr scorer (mkDataFrame cols rows1) clin self = (Ok res1, self) ->
  reconcile py_lower py_isspace float_repr scorer (mkDataFrame cols rows2) clin self = (Ok res2, self) ->
  reconcile py_lower py_isspace float_repr scorer (mkDataFrame cols (rows1 ++ rows2)) clin self
    = (Ok (res1 ++ res2), self).
Proof.
  intros self cols rows1 rows2 clin res1 res2 Hdt H1 H2.
  destruct (reconcile_ok_valid _ _ _ _ _ H1) as [Hi1 Hc].
  destruct (reconcile_ok_valid _ _ _ _ _ H2) as [Hi2 _].
  pose proof (validate_rows _ _ Hi1) as Hne1. pose proof (validate_rows _ _ Hi2) as Hne2.
  cbn [df_rows] in Hne1, Hne2.
  assert (Hi : validate_dataframe (mkDataFrame cols (rows1 ++ rows2)) INVOICE_REQUIRED = (true, None))
    by (rewrite validate_concat by exact Hne1; exact Hi1).
  assert (Hd1 : forall c, In c cols ->
            df_dtype (mkDataFrame cols (rows1 ++ rows2)) c = df_dtype (mkDataFrame cols rows1) c)
    by (intros c Hin; apply df_dtype_concat; auto).
  assert (Hd2 : forall c, In c cols ->
            df_dtype (mkDataFrame cols (rows1 ++ rows2)) c = df_dtype (mkDataFrame cols rows2) c)
    by (intros c Hin; rewrite Hd1 by exact Hin; apply Hdt, Hin).
  assert (Hreq : forall c, In c INVOICE_REQUIRED -> In c cols)
    by exact (validate_cols _ _ Hi1).
  rewrite reconcile_valid in H1, H2 |- * by assumption.
  unfold iterrows in *. rewrite mapM_map in H1, H2 |- *. cbn [df_rows] in *.
  apply mapM_app_ok; [intros; apply reconcile_row_state | |].
  - rewrite <- H1. apply (f_equal (fun m : M (list MatchResult) => m self)).
    apply mapM_ext_in. intros r _.
    apply reconcile_row_ext; apply iter_row_same_dtypes; try exact Hd1; try reflexivity;
      apply Hreq; unfold INVOICE_REQUIRED; simpl; tauto.
  - rewrite <- H2. apply (f_equal (fun m : M (list MatchResult) => m self)).
    apply mapM_ext_in. intros r _.
    apply reconcile_row_ext; apply iter_row_same_dtypes; try exact Hd2; try reflexivity;
      apply Hreq; unfold INVOICE_REQUIRED; simpl; tauto.
Qed.

End Extra.

(** ** Summary statistics and financial metrics *)

Lemma existsb_none : forall A (f : A -> bool) l, (forall x, In x l -> f x = false) -> existsb f l = false.
Proof.
  intros A f l H. apply not_true_iff_false. intros E.
  apply existsb_exists in E as [x [Hx Ex]]. rewrite H in Ex by exact Hx. discriminate.
Qed.

Lemma infer_dtype_floats : forall xs, xs <> [] ->
  (forall x, In x xs -> exists f, x = PFloat f) -> infer_dtype xs = DFloat64.
Proof.
  intros xs Hne H. rewrite (infer_dtype_nonempty _ Hne).
  rewrite existsb_none by (intros x Hx; destruct (H x Hx) as [f ->]; reflexivity).
  destruct xs as [| x xs]; [contradiction |].
  destruct (H x (or_introl eq_refl)) as [f ->]. simpl.
  rewrite existsb_none by (intros y Hy; destruct (H y (or_intror Hy)) as [g ->]; reflexivity).
  reflexivity.
Qed.

Lemma count_valid_all : forall xs, (forall x, In x xs -> is_na x = false) ->
  count_valid xs = List.length xs.
Proof.
  intros xs H. unfold count_valid. induction xs as [| x xs IH]; [reflexivity |].
  simpl. rewrite (H x (or_introl eq_refl)). simpl. f_equal. apply IH.
  intros y Hy. apply H. right. exact Hy.
Qed.

Lemma summary_entry_float : forall rs l e,
  (forall r, In r rs -> exists f, mr_cost_at_risk r = PFloat f /\ is_nan f = false) ->
  summary_entry DFloat64 rs l = Ok e -> (0 < se_count e)%nat ->
  exists t, se_total_amount e = PFloat t /\
    se_avg_amount e = PFloat (t / float_of_Z (Z.of_nat (se_count e)))%float.
Proof.
  intros rs l e H He Hc. unfold summary_entry in He.
  remember (filter (fun r => String.eqb (mr_risk_level r) l) rs) as filtered eqn:Ef.
  cbn [series_sum_dt ebind] in He.
  destruct (Nat.ltb_spec 0 (List.length filtered)) as [Hlt | Hge].
  - cbn [series_mean_dt ebind] in He. injection He as <-.
    eexists. split; [reflexivity |]. cbn [se_avg_amount se_count]. unfold div_count.
    rewrite count_valid_all, length_map.
    + destruct (Nat.ltb_spec 0 (List.length filtered)); [reflexivity | lia].
    + intros x Hx. apply in_map_iff in Hx as [r [<- Hr]].
      rewrite Ef in Hr. apply filter_In in Hr as [Hr _].
      destruct (H r Hr) as [f [-> Hf]]. exact Hf.
  - cbn [ebind] in He. injection He as <-. simpl in Hc. lia.
Qed.

(** When the results are not empty and every [Cost_At_Risk] is a float
    (not NaN), [generate_summary_stats] succeeds without changing the
    engine, and every entry with a non-zero count has a float total and, as
    its average, that total divided by the count in float arithmetic. *)
Theorem generate_summary_stats_average : forall self results,
  results <> [] ->
  (forall r, In r results -> exists f, mr_cost_at_risk r = PFloat f /\ is_nan f = false) ->
  exists summary,
    generate_summary_stats results self = (Ok summary, self) /\
    forall l e, In (l, e) summary -> (0 < se_count e)%nat ->
      exists t, se_total_amount e = PFloat t /\
        se_avg_amount e = PFloat (t / float_of_Z (Z.of_nat (se_count e)))%float.
Proof.
  intros self results Hne Hf.
  assert (Hnum : forall r, In r results -> num_val (mr_cost_at_risk r) <> None)
    by (intros r Hr; destruct (Hf r Hr) as [f [-> _]]; discriminate).
  assert (Hdt : infer_dtype (map mr_cost_at_risk results) = DFloat64).
  { apply infer_dtype_floats.
    - intros Hn. apply map_eq_nil in Hn. contradiction.
    - intros x Hx. apply in_map_iff in Hx as [r [<- Hr]].
      destruct (Hf r Hr) as [f [-> _]]. exists f. reflexivity. }
  destruct (summary_entry_num DFloat64 results RISK_HIGH Hnum) as [eH [EH _]].
  destruct (summary_entry_num DFloat64 results RISK_MEDIUM Hnum) as [eM [EM _]].
  destruct (summary_entry_num DFloat64 results RISK_LOW Hnum) as [eL [EL _]].
  exists [(RISK_HIGH, eH); (RISK_MEDIUM, eM); (RISK_LOW, eL)].
  split.
  - rewrite generate_summary_stats_nonempty by exact Hne. rewrite Hdt.
    unfold lift, summary_loop. rewrite EH, EM, EL. reflexivity.
  - intros l e [He | [He | [He | []]]]; injection He as <- <-;
      eapply summary_entry_float; eauto.
Qed.

(** ** calculate_financial_metrics *)

Lemma df_column_in : forall df c, In c (df_columns df) ->
  df_column df c = Some (df_dtype df c, column_values df c).
Proof.
  intros df c H. unfold df_column.
  assert (existsb (String.eqb c) (df_columns df) = true) as ->; [| reflexivity].
  apply existsb_exists. exists c. split; [exact H | apply String.eqb_refl].
Qed.

Lemma df_column_notin : forall df c, ~ In c (df_columns df) -> df_column df c = None.
Proof.
  intros df c H. unfold df_column.
  destruct (existsb (String.eqb c) (df_columns df)) eqn:E; [| reflexivity].
  apply existsb_exists in E as [c' [Hc' Eq]]. apply String.eqb_eq in Eq. subst c'. contradiction.
Qed.

(** For a present cost column with at least one row, all of its cells
    floats (none NaN), [calculate_financial_metrics] returns the number of
    rows as count, numpy's pairwise float sum of the cells as total, and
    the total divided by the count in float arithmetic as average. *)
Theorem calculate_financial_metrics_numeric : forall df cost_column,
  In cost_column (df_columns df) -> df_rows df <> [] ->
  (forall r, In r (df_rows df) -> exists f, r cost_column = PFloat f /\ is_nan f = false) ->
  let t := np_sum (map (fun r => as_float (r cost_column)) (df_rows df)) in
  calculate_financial_metrics df cost_column =
    {| fm_total_amount := PFloat t;
       fm_count := List.length (df_rows df);
       fm_average_amount := PFloat (t / float_of_Z (Z.of_nat (List.length (df_rows df))))%float |}.
Proof.
  intros df col Hin Hne Hf t.
  assert (Hdt : df_dtype df col = DFloat64).
  { apply infer_dtype_floats.
    - intros Hn. apply map_eq_nil in Hn. contradiction.
    - intros x Hx. apply in_map_iff in Hx as [r [<- Hr]].
      destruct (Hf r Hr) as [f [-> _]]. exists f. reflexivity. }
  assert (Hcells : forall x, In x (column_values df col) ->
            exists f, x = PFloat f /\ is_nan f = false).
  { intros x Hx. unfold column_values, column_cells in Hx. rewrite Hdt in Hx.
    apply in_map_iff in Hx as [y [<- Hy]]. apply in_map_iff in Hy as [r [<- Hr]].
    destruct (Hf r Hr) as [f [-> Hn]]. exists f. split; [reflexivity | exact Hn]. }
  assert (Hsum : map (fun v => nan_to_zero (as_float v)) (column_values df col)
                 = map (fun r => as_float (r col)) (df_rows df)).
  { unfold column_values, column_cells. rewrite Hdt, !map_map. apply map_ext_in.
    intros r Hr. destruct (Hf r Hr) as [f [-> Hn]]. simpl. unfold nan_to_zero. rewrite Hn.
    reflexivity. }
  assert (Hcount : count_valid (column_values df col) = List.length (df_rows df)).
  { rewrite count_valid_all.
    - unfold column_values, column_cells. rewrite !length_map. reflexivity.
    - intros x Hx. destruct (Hcells x Hx) as [f [-> Hn]]. exact Hn. }
  unfold calculate_financial_metrics, financial_metrics_try.
  rewrite df_column_in by exact Hin. rewrite Hdt. cbn [series_sum_dt series_mean_dt].
  rewrite Hsum, Hcount. fold t. unfold div_count.
  destruct (Nat.ltb_spec 0 (List.length (df_rows df))) as [_ | Hz];
    [reflexivity | destruct (df_rows df); [contradiction | simpl in Hz; lia]].
Qed.

(** For a present cost column and no rows, [calculate_financial_metrics]
    does not take its zero fallback: it returns the sum of an empty column
    (0, or 0.0 for a float column), the count 0 and a NaN average. *)
Theorem calculate_financial_metrics_no_rows : forall df cost_column,
  In cost_column (df_columns df) -> df_rows df = [] ->
  let m := calculate_financial_metrics df cost_column in
  (fm_total_amount m = PInt 0 \/ fm_total_amount m = PFloat 0) /\
  fm_count m = 0%nat /\
  exists f, fm_average_amount m = PFloat f /\ is_nan f = true.
Proof.
  intros df col Hin Hr m. subst m.
  unfold calculate_financial_metrics, financial_metrics_try.
  rewrite df_column_in by exact Hin.
  unfold column_values, column_cells. rewrite Hr. cbn [map].
  destruct (df_dtype df col); cbn; (split; [auto | split; [reflexivity |]]);
    eexists; (split; [reflexivity | reflexivity]).
Qed.

Lemma sum_from_text : forall xs acc,
  (num_val acc = None \/ exists x, In x xs /\ num_val x = None) ->
  match sum_from acc xs with Ok v => num_val v = None | Err _ => True end.
Proof.
  induction xs as [| x xs IH]; intros acc H; simpl.
  - destruct H as [H | [x [[] _]]]. exact H.
  - destruct (py_add acc x) as [a |] eqn:E; simpl; [| exact I].
    apply IH.
    destruct H as [Hacc | [y [[<- | Hy] Hny]]].
    + left. destruct acc; try discriminate; destruct x; simpl in E; try discriminate.
      injection E as <-. reflexivity.
    + left. destruct x; try discriminate; destruct acc; simpl in E; try discriminate.
      injection E as <-. reflexivity.
    + right. exists y. split; assumption.
Qed.

Lemma object_sum_text : forall xs, (exists x, In x xs /\ num_val x = None) ->
  match object_sum xs with Ok v => num_val v = None | Err _ => True end.
Proof.
  intros xs [y [Hy Hn]]. unfold object_sum.
  assert (Hy' : In y (map fill_na xs)).
  { apply in_map_iff. exists y. split; [| exact Hy]. unfold fill_na.
    destruct y; [reflexivity | discriminate ..]. }
  destruct (map fill_na xs) as [| x xs']; [destruct Hy' |].
  apply sum_from_text. destruct Hy' as [<- | Hy']; [left; exact Hn | right; exists y; split; assumption].
Qed.

(** A text cell makes the column [object], whose values are the cells. *)
Lemma column_text : forall df c r, In r (df_rows df) -> num_val (r c) = None ->
  df_dtype df c = DObject /\ column_values df c = column_cells df c /\
  exists x, In x (column_values df c) /\ num_val x = None.
Proof.
  intros df c r Hr Hn.
  assert (Hin : In (r c) (column_cells df c)) by (apply (in_map (fun r0 => r0 c)), Hr).
  assert (Hdt : df_dtype df c = DObject).
  { unfold df_dtype. assert (Hne : column_cells df c <> []) by (intros E; rewrite E in Hin; destruct Hin).
    rewrite (infer_dtype_nonempty _ Hne).
    assert (existsb is_str (column_cells df c) = true) as ->; [| reflexivity].
    apply existsb_exists. exists (r c). split; [exact Hin |]. destruct (r c); [reflexivity | discriminate ..]. }
  assert (Hv : column_values df c = column_cells df c).
  { unfold column_values. rewrite Hdt.
    transitivity (map (fun x => x) (column_cells df c)); [apply map_ext; intros []; reflexivity | apply map_id]. }
  split; [exact Hdt | split; [exact Hv |]]. exists (r c). rewrite Hv. split; assumption.
Qed.

(** When the cost column is missing, or one of its cells is text,
    [calculate_financial_metrics] catches the exception and returns total
    0.0, count 0 and average 0.0, whatever the number of rows. *)
Theorem calculate_financial_metrics_fallback : forall df cost_column,
  ~ In cost_column (df_columns df) \/
  (exists r, In r (df_rows df) /\ num_val (r cost_column) = None) ->
  calculate_financial_metrics df cost_column =
    {| fm_total_amount := PFloat 0; fm_count := 0; fm_average_amount := PFloat 0 |}.
Proof.
  intros df col [Hout | [r [Hr Hq]]]; unfold calculate_financial_metrics, financial_metrics_try.
  - rewrite df_column_notin by exact Hout. reflexivity.
  - destruct (column_text df col r Hr Hq) as [Hdt [_ Htext]].
    unfold df_column. rewrite Hdt.
    destruct (existsb (String.eqb col) (df_columns df)); [| reflexivity].
    cbn [series_sum_dt series_mean_dt].
    pose proof (object_sum_text _ Htext) as Hs.
    destruct (object_sum (column_values df col)) as [v | e]; [| reflexivity].
    cbn [ebind]. destruct v; [reflexivity | discriminate ..].
Qed.

(** ** app.py *)

Section AppProps.

Variable py_lower : Z -> list Z.
Variable py_isspace : Z -> bool.
Variable float_repr : float -> pystr.
Variable scorer : pystr -> pystr -> Q.

(** In the app's analysis step, a missing [Unit_Cost] column raises a
    [KeyError], and a text [Unit_Cost] cell raises, outside the [try]
    block: the script fails before [reconcile] runs. *)
Theorem app_analysis_fails_before_reconcile : forall match_threshold inv clin,
  (~ In INV_UNIT_COST (df_columns inv) ->
     app_analysis py_lower py_isspace float_repr scorer match_threshold inv clin = Uncaught "KeyError") /\
  ((exists r, In r (df_rows inv) /\ num_val (r INV_UNIT_COST) = None) ->
     exists what, app_analysis py_lower py_isspace float_repr scorer match_threshold inv clin = Uncaught what).
Proof.
  intros mt inv clin. split.
  - intros Hout. unfold app_analysis. rewrite df_column_notin by exact Hout. reflexivity.
  - intros [r [Hr Hq]]. unfold app_analysis. unfold df_column.
    destruct (column_text inv INV_UNIT_COST r Hr Hq) as [Hdt [_ Htext]]. rewrite Hdt.
    destruct (existsb _ _); [| eexists; reflexivity].
    cbn [series_sum_dt].
    pose proof (object_sum_text _ Htext) as Hs.
    destruct (object_sum _) as [v |]; [| eexists; reflexivity].
    destruct v; [eexists; reflexivity | discriminate ..].
Qed.

(** On valid inputs with numeric [Unit_Cost] cells, the app's analysis step
    shows its report: Invoices Processed is the number of invoice rows, the
    results are those of [reconcile] with the chosen threshold, the summary
    has the tiers High, Medium and Low in that order, and their counts add
    up to the number of invoice rows. *)
Theorem app_analysis_report : forall match_threshold inv clin,
  validate_dataframe inv INVOICE_REQUIRED = (true, None) ->
  validate_dataframe clin CLINICAL_REQUIRED = (true, None) ->
  (forall r, In r (df_rows inv) -> num_val (r INV_UNIT_COST) <> None) ->
  exists total_spend df_results summary_stats,
    app_analysis py_lower py_isspace float_repr scorer match_threshold inv clin
      = Shown (List.length (df_rows inv)) total_spend df_results summary_stats /\
    reconcile py_lower py_isspace float_repr scorer inv clin (mkEngine match_threshold)
      = (Ok df_results, mkEngine match_threshold) /\
    map fst summary_stats = [RISK_HIGH; RISK_MEDIUM; RISK_LOW] /\
    fold_right Nat.add 0%nat (map (fun p => se_count (snd p)) summary_stats)
      = List.length (df_rows inv).
Proof.
  intros mt inv clin Hi Hc Hnum.
  assert (Hcol : In INV_UNIT_COST (df_columns inv))
    by (apply (validate_cols _ _ Hi); unfold INVOICE_REQUIRED; simpl; tauto).
  assert (Hcells : forall x, In x (column_values inv INV_UNIT_COST) -> num_val x <> None).
  { intros x Hx. unfold column_values, column_cells in Hx.
    apply in_map_iff in Hx as [y [<- Hy]]. apply in_map_iff in Hy as [r [<- Hr]].
    apply num_val_astype_cell, Hnum, Hr. }
  destruct (series_sum_dt_num (df_dtype inv INV_UNIT_COST) _ Hcells) as [ts [Hts Hnts]].
  destruct (format_2f_num ts Hnts) as [fs Hfs].
  destruct (reconcile_rows_fields py_lower py_isspace float_repr scorer
              (mkEngine mt) inv clin Hi Hc Hnum) as [res [Hres HF]].
  assert (Hres_ok : forall m, In m res ->
            In (mr_risk_level m) [RISK_HIGH; RISK_MEDIUM; RISK_LOW] /\
            num_val (mr_cost_at_risk m) <> None).
  { intros m Hm. clear -HF Hm Hnum.
    induction HF as [| r m' rows res Hrm HF IH]; [destruct Hm |].
    destruct Hm as [<- | Hm]; [| apply IH; [intros; apply Hnum; right; assumption | exact Hm]].
    destruct Hrm as [_ [_ [Hcl [_ [Hcost _]]]]]. split.
    - pose proof (classify_risk_levels (mkEngine mt) (mr_confidence_score_numeric m')) as Hl.
      rewrite Hcl in Hl. exact Hl.
    - rewrite Hcost. apply num_val_iter_row, Hnum. left. reflexivity. }
  assert (Hnum' : forall m, In m res -> num_val (mr_cost_at_risk m) <> None)
    by (intros m Hm; apply Hres_ok, Hm).
  set (dt := infer_dtype (map mr_cost_at_risk res)).
  destruct (summary_entry_num dt res RISK_HIGH Hnum') as [eH [EH [CH _]]].
  destruct (summary_entry_num dt res RISK_MEDIUM Hnum') as [eM [EM [CM _]]].
  destruct (summary_entry_num dt res RISK_LOW Hnum') as [eL [EL [CL _]]].
  pose proof (count_partition res (fun m Hm => proj1 (Hres_ok m Hm))) as Hcount.
  assert (Hlen : List.length res = List.length (df_rows inv)) by (symmetry; exact (Forall2_length HF)).
  assert (Hne : res <> []).
  { intros E. rewrite E in Hlen. apply (validate_rows _ _ Hi).
    destruct (df_rows inv); [reflexivity | discriminate]. }
  exists ts, res, [(RISK_HIGH, eH); (RISK_MEDIUM, eM); (RISK_LOW, eL)].
  split; [| split; [exact Hres | split; [reflexivity |]]].
  - unfold app_analysis. rewrite df_column_in by exact Hcol. rewrite Hts.
    unfold format_currency. rewrite Hfs. cbn [ebind].
    rewrite Hres. rewrite generate_summary_stats_nonempty by exact Hne. fold dt.
    unfold lift, summary_loop. rewrite EH, EM, EL. reflexivity.
  - simpl. rewrite CH, CM, CL, Hcount. exact Hlen.
Qed.

End AppProps.

(** ** utils.format_currency *)

Lemma read_digits_app : forall l1 l2 acc,
  read_digits acc (l1 ++ l2) = read_digits (read_digits acc l1) l2.
Proof. induction l1 as [| c l1 IH]; intros l2 acc; simpl; [reflexivity | apply IH]. Qed.

Lemma read_digits_filter : forall s acc, read_digits acc s = read_digits acc (filter is_digit s).
Proof.
  induction s as [| c s IH]; intros acc; [reflexivity |].
  simpl. unfold is_digit. destruct ((48 <=? c) && (c <=? 57)) eqn:E; simpl; rewrite ?E, IH; reflexivity.
Qed.

Lemma filter_group_rev : forall n l, (List.length l <= n)%nat ->
  filter is_digit (group_rev l) = filter is_digit l.
Proof.
  induction n as [| n IH]; intros l Hl.
  - destruct l; [reflexivity | simpl in Hl; lia].
  - destruct l as [| a [| b [| c [| d r]]]]; try reflexivity.
    change (group_rev (a :: b :: c :: d :: r)) with (a :: b :: c :: COMMA :: group_rev (d :: r)).
    cbn [filter]. replace (is_digit COMMA) with false by reflexivity.
    rewrite (IH (d :: r)) by (simpl in *; lia). reflexivity.
Qed.

Lemma filter_rev : forall A (f : A -> bool) l, filter f (rev l) = rev (filter f l).
Proof.
  intros A f l. induction l as [| x l IH]; simpl; [reflexivity |].
  rewrite filter_app, IH. simpl. destruct (f x); simpl; [reflexivity | apply app_nil_r].
Qed.

Lemma read_group : forall ds acc, read_digits acc (group_thousands ds) = read_digits acc ds.
Proof.
  intros ds acc. unfold group_thousands.
  rewrite read_digits_filter, (read_digits_filter ds), filter_rev.
  rewrite (filter_group_rev (List.length (rev ds))) by lia.
  rewrite filter_rev, rev_involutive. reflexivity.
Qed.

Lemma digits_fuel_read : forall fuel n, 0 <= n < 2 ^ Z.of_nat fuel ->
  read_digits 0 (digits_fuel fuel n) = n.
Proof.
  induction fuel as [| f IH]; intros n Hn.
  - simpl in Hn. simpl. lia.
  - cbn [digits_fuel]. rewrite Nat2Z.inj_succ, Z.pow_succ_r in Hn by lia.
    destruct (Z.ltb_spec n 10).
    + cbn [read_digits].
      replace ((48 <=? 48 + n) && (48 + n <=? 57)) with true; [cbn [read_digits]; lia |].
      symmetry. apply andb_true_iff. split; apply Z.leb_le; lia.
    + rewrite read_digits_app, IH.
      * cbn [read_digits]. pose proof (Z.mod_pos_bound n 10 ltac:(lia)).
        replace ((48 <=? 48 + n mod 10) && (48 + n mod 10 <=? 57)) with true.
        -- cbn [read_digits]. pose proof (Z.div_mod n 10 ltac:(lia)). lia.
        -- symmetry. apply andb_true_iff. split; apply Z.leb_le; lia.
      * pose proof (Z.div_mod n 10 ltac:(lia)). pose proof (Z.mod_pos_bound n 10 ltac:(lia)).
        split; [apply Z.div_pos; lia | lia].
Qed.

Lemma digits_read : forall n, 0 <= n -> read_digits 0 (digits n) = n.
Proof.
  intros n Hn. unfold digits. apply digits_fuel_read. split; [exact Hn |].
  rewrite Nat2Z.inj_succ, Z2Nat.id by apply Z.log2_nonneg.
  destruct (Z.eq_dec n 0) as [-> | Hnz]; [reflexivity |].
  apply Z.log2_spec. lia.
Qed.

Lemma digits_fuel_chars : forall fuel n c, 0 <= n -> In c (digits_fuel fuel n) -> 48 <= c <= 57.
Proof.
  induction fuel as [| f IH]; intros n c Hn Hc; cbn [digits_fuel] in Hc; [destruct Hc |].
  destruct (Z.ltb_spec n 10).
  - destruct Hc as [<- | []]. lia.
  - apply in_app_or in Hc as [Hc | [<- | []]].
    + apply (IH (n / 10)); [apply Z.div_pos; lia | exact Hc].
    + pose proof (Z.mod_pos_bound n 10 ltac:(lia)). lia.
Qed.

Lemma group_rev_chars : forall n l c, (List.length l <= n)%nat ->
  In c (group_rev l) -> c = COMMA \/ In c l.
Proof.
  induction n as [| n IH]; intros l c Hl Hc.
  - destruct l; [destruct Hc | simpl in Hl; lia].
  - destruct l as [| a [| b [| c' [| d r]]]]; try (right; exact Hc).
    change (group_rev (a :: b :: c' :: d :: r)) with (a :: b :: c' :: COMMA :: group_rev (d :: r)) in Hc.
    destruct Hc as [<- | [<- | [<- | [<- | Hc]]]]; try (right; simpl; tauto); [left; reflexivity |].
    apply IH in Hc as [-> | Hc]; [left; reflexivity | right; simpl in *; tauto | simpl in *; lia].
Qed.

Lemma group_digits_chars : forall k c, 0 <= k -> In c (group_thousands (digits k)) ->
  c = COMMA \/ 48 <= c <= 57.
Proof.
  intros k c Hk Hc. unfold group_thousands in Hc. apply in_rev in Hc.
  apply (group_rev_chars (List.length (rev (digits k)))) in Hc as [-> | Hc]; [left; reflexivity | | lia].
  right. apply in_rev in Hc. exact (digits_fuel_chars _ _ _ Hk Hc).
Qed.

Lemma round_half_even_close : forall q,
  (Qabs (inject_Z (round_half_even q) - q) <= 1 # 2)%Q.
Proof.
  intros q. unfold round_half_even. set (f := Qfloor q).
  assert (H1 : (inject_Z f <= q)%Q) by apply Qfloor_le.
  assert (H2 : (q < inject_Z f + 1)%Q).
  { pose proof (Qlt_floor q) as H. rewrite inject_Z_plus in H. exact H. }
  destruct (Qcompare_spec (q - inject_Z f) (1 # 2)) as [E | E | E];
    [destruct (Z.even f) | |];
    apply Qabs_Qle_condition; rewrite ?inject_Z_plus; change (inject_Z 1) with 1%Q; split; lra.
Qed.

Lemma round_half_even_nonneg : forall q, (0 <= q)%Q -> 0 <= round_half_even q.
Proof.
  intros q Hq. unfold round_half_even.
  assert (0 <= Qfloor q).
  { change 0 with (Qfloor 0). apply Qfloor_resp_le. exact Hq. }
  destruct (_ ?= _)%Q; [destruct (Z.even _) |  | ]; lia.
Qed.

Lemma read_digit : forall acc d, 0 <= d <= 9 -> read_digits acc [48 + d] = acc * 10 + d.
Proof.
  intros acc d Hd. cbn [read_digits].
  replace ((48 <=? 48 + d) && (48 + d <=? 57)) with true; [lia |].
  symmetry. apply andb_true_iff. split; apply Z.leb_le; lia.
Qed.

Lemma is_nan_Prim2SF : forall f, is_nan f = true -> FloatOps.Prim2SF f = SpecFloat.S754_nan.
Proof.
  intros f H. unfold is_nan in H. rewrite FloatAxioms.eqb_spec in H.
  destruct (FloatOps.Prim2SF f) as [s | s | | s m e]; [destruct s .. | reflexivity | destruct s];
    cbn in H; try discriminate.
  all: rewrite ?Pos.compare_refl, ?Z.compare_refl in H; cbn in H; discriminate.
Qed.

Lemma mag_q_nonneg : forall m e, (0 <= mag_q m e)%Q.
Proof.
  intros m e. apply (sf_q_nonneg (SpecFloat.S754_finite false m e)); reflexivity.
Qed.

(** The magnitude part of the [,.2f] format: no minus sign, and its digits
    read as cents are within half a cent of the magnitude. *)
Lemma fixed_2f_props : forall a, (0 <= a)%Q ->
  ~ In 45 (fixed_2f a) /\
  (Qabs (inject_Z (read_digits 0 (fixed_2f a)) / 100 - a) <= 1 # 200)%Q.
Proof.
  intros a Ha. unfold fixed_2f.
  set (cents := round_half_even (a * 100)).
  assert (Hc0 : 0 <= cents).
  { apply round_half_even_nonneg. apply Qmult_le_0_compat; [exact Ha | discriminate]. }
  pose proof (round_half_even_close (a * 100)) as Hclose. fold cents in Hclose.
  change (pys ".") with [46].
  pose proof (Z.mod_pos_bound cents 100 ltac:(lia)) as Hm.
  assert (Hd1 : 0 <= cents mod 100 / 10 <= 9).
  { split; [apply Z.div_pos; lia |].
    assert (cents mod 100 / 10 < 10) by (apply Z.div_lt_upper_bound; lia). lia. }
  pose proof (Z.mod_pos_bound cents 10 ltac:(lia)) as Hd2.
  assert (Hk : 0 <= cents / 100) by (apply Z.div_pos; lia).
  split.
  - intros H. rewrite !in_app_iff in H.
    destruct H as [H | [[H | []] | [H | [H | []]]]]; try discriminate; try lia.
    apply group_digits_chars in H; [unfold COMMA in H; lia | exact Hk].
  - assert (Hread : read_digits 0
        (group_thousands (digits (cents / 100)) ++ [46] ++
         [48 + cents mod 100 / 10; 48 + cents mod 10]) = cents).
    { rewrite !read_digits_app.
      rewrite read_group, digits_read by exact Hk.
      change [48 + cents mod 100 / 10; 48 + cents mod 10]
        with ([48 + cents mod 100 / 10] ++ [48 + cents mod 10]).
      rewrite read_digits_app, !read_digit by lia.
      change (read_digits (cents / 100) [46]) with (cents / 100).
      pose proof (Z.div_mod cents 100 ltac:(lia)).
      pose proof (Z.div_mod (cents mod 100) 10 ltac:(lia)).
      pose proof (Z.mod_mod_divide cents 100 10 ltac:(exists 10; reflexivity)).
      lia. }
    rewrite Hread.
    apply Qabs_Qle_condition in Hclose as [Hl Hh]. apply Qabs_Qle_condition.
    change (inject_Z cents / 100)%Q with (inject_Z cents * (1 # 100))%Q. split; lra.
Qed.

Lemma currency_prefix : forall sg x,
  read_digits 0 (pys "$" ++ sign_str sg ++ x) = read_digits 0 x /\
  (In 45 (pys "$" ++ sign_str sg ++ x) <-> sg = true \/ In 45 x).
Proof.
  intros [] x; (split; [reflexivity |]); cbn; split.
  - intros _. left. reflexivity.
  - intros _. right. left. reflexivity.
  - intros [H | H]; [discriminate H | right; exact H].
  - intros [H | H]; [discriminate H | right; exact H].
Qed.

(** [format_currency] of a float writes a [$] first; NaN is written
    [$nan] and an infinity [$inf] or [$-inf]; for a finite float the text
    contains a minus sign exactly when the float's sign bit is set (also
    for [-0.0]), and its digits, read as a number of cents, are within half
    a cent of the float's magnitude. *)
Theorem format_currency_cents : forall f,
  exists s, format_currency (PFloat f) = Ok s /\ hd_error s = Some 36 /\
    (is_nan f = true -> s = pys "$nan") /\
    (forall sg, FloatOps.Prim2SF f = SpecFloat.S754_infinity sg ->
       s = pys "$" ++ sign_str sg ++ pys "inf") /\
    (forall q, float_q f = Some q ->
       (In 45 s <-> float_sign f = true) /\
       (Qabs (inject_Z (read_digits 0 s) / 100 - Qabs q) <= 1 # 200)%Q).
Proof.
  intros f. unfold format_currency. cbn [format_2f as_float ebind].
  eexists. split; [reflexivity |]. split; [reflexivity |].
  split; [intros Hn; unfold format_float_2f; rewrite (is_nan_Prim2SF f Hn); reflexivity |].
  split; [intros sg Hs; unfold format_float_2f; rewrite Hs; reflexivity |].
  intros q Hq. unfold float_q, float_sign, format_float_2f in *.
  destruct (FloatOps.Prim2SF f) as [sg | sg | | sg m e]; cbn [sf_q] in Hq; try discriminate;
    injection Hq as <-.
  - destruct (fixed_2f_props 0 (Qle_refl 0)) as [Hno Hr].
    destruct (currency_prefix sg (fixed_2f 0)) as [-> Hin].
    rewrite Hin. split; [tauto |]. exact Hr.
  - destruct (fixed_2f_props (mag_q m e) (mag_q_nonneg m e)) as [Hno Hr].
    destruct (currency_prefix sg (fixed_2f (mag_q m e))) as [-> Hin].
    rewrite Hin. split; [tauto |].
    assert (Habs : (Qabs (if sg then - mag_q m e else mag_q m e) == mag_q m e)%Q).
    { pose proof (mag_q_nonneg m e).
      destruct sg; [rewrite Qabs_opp |]; apply Qabs_pos; assumption. }
    rewrite Habs. exact Hr.
Qed.

(** ** Witnesses of the further properties *)

Lemma classify_risk_monotone_witness :
  50 <= 95 /\
  ((snd (classify_risk (mkEngine DEFAULT_MATCH_THRESHOLD) 95) = RISK_HIGH ->
    snd (classify_risk (mkEngine DEFAULT_MATCH_THRESHOLD) 50) = RISK_HIGH) /\
   (snd (classify_risk (mkEngine DEFAULT_MATCH_THRESHOLD) 50) = RISK_LOW ->
    snd (classify_risk (mkEngine DEFAULT_MATCH_THRESHOLD) 95) = RISK_LOW) /\
   (snd (classify_risk (mkEngine DEFAULT_MATCH_THRESHOLD) 95) = RISK_MEDIUM ->
    snd (classify_risk (mkEngine DEFAULT_MATCH_THRESHOLD) 50) <> RISK_LOW)).
Proof. split; [lia | apply classify_risk_monotone; lia]. Defined.

Lemma normalize_text_words_witness :
  exists ws, normalize_text_inst (PStr (pys "  Stryker-KNEE  System #2!")) = py_join ws /\
    Forall (fun w => w <> [] /\ Forall (fun c => 97 <= c <= 122 \/ 48 <= c <= 57) w) ws.
Proof.
  exact (normalize_text_words ascii_lower unicode_isspace float_repr_inst eq_refl
           (pys "  Stryker-KNEE  System #2!")).
Defined.


Lemma reconcile_text_unit_cost_witness :
  reconcile_inst text_invoice sample_clinical (mkEngine DEFAULT_MATCH_THRESHOLD)
    = (Err (ValueError "Unknown format code 'f' for object of type 'str'"),
       mkEngine DEFAULT_MATCH_THRESHOLD).
Proof.
  apply (reconcile_text_unit_cost ascii_lower unicode_isspace float_repr_inst token_sort_ratio_inst);
    [reflexivity | reflexivity |].
  exists text_cost_row. split; [right; left; reflexivity | reflexivity].
Defined.

Lemma reconcile_concat_witness :
  exists res1 res2,
    reconcile_inst (mkDataFrame (df_columns sample_invoice) [knee_row]) sample_clinical
      (mkEngine DEFAULT_MATCH_THRESHOLD) = (Ok res1, mkEngine DEFAULT_MATCH_THRESHOLD) /\
    reconcile_inst (mkDataFrame (df_columns sample_invoice) [hip_row]) sample_clinical
      (mkEngine DEFAULT_MATCH_THRESHOLD) = (Ok res2, mkEngine DEFAULT_MATCH_THRESHOLD) /\
    reconcile_inst (mkDataFrame (df_columns sample_invoice) ([knee_row] ++ [hip_row])) sample_clinical
      (mkEngine DEFAULT_MATCH_THRESHOLD) = (Ok (res1 ++ res2), mkEngine DEFAULT_MATCH_THRESHOLD).
Proof.
  destruct (reconcile_inst (mkDataFrame (df_columns sample_invoice) [knee_row]) sample_clinical
              (mkEngine DEFAULT_MATCH_THRESHOLD)) as [[res1 | e1] s1] eqn:E1;
    [| vm_compute in E1; discriminate].
  destruct (reconcile_inst (mkDataFrame (df_columns sample_invoice) [hip_row]) sample_clinical
              (mkEngine DEFAULT_MATCH_THRESHOLD)) as [[res2 | e2] s2] eqn:E2;
    [| vm_compute in E2; discriminate].
  assert (Hs1 : s1 = mkEngine DEFAULT_MATCH_THRESHOLD)
    by (vm_compute in E1; injection E1 as _ H; rewrite <- H; reflexivity).
  assert (Hs2 : s2 = mkEngine DEFAULT_MATCH_THRESHOLD)
    by (vm_compute in E2; injection E2 as _ H; rewrite <- H; reflexivity).
  subst s1 s2.
  exists res1, res2. split; [reflexivity | split; [reflexivity |]].
  refine (reconcile_concat ascii_lower unicode_isspace float_repr_inst token_sort_ratio_inst
            (mkEngine DEFAULT_MATCH_THRESHOLD) (df_columns sample_invoice) [knee_row] [hip_row]
            sample_clinical res1 res2 _ E1 E2).
  intros c Hc. simpl in Hc.
  destruct Hc as [<- | [<- | [<- | [<- | [<- | [<- | []]]]]]]; reflexivity.
Defined.

Lemma generate_summary_stats_average_witness :
  exists summary,
    generate_summary_stats float_tier_results (mkEngine DEFAULT_MATCH_THRESHOLD)
      = (Ok summary, mkEngine DEFAULT_MATCH_THRESHOLD) /\
    forall l e, In (l, e) summary -> (0 < se_count e)%nat ->
      exists t, se_total_amount e = PFloat t /\
        se_avg_amount e = PFloat (t / float_of_Z (Z.of_nat (se_count e)))%float.
Proof.
  apply generate_summary_stats_average; [discriminate |].
  intros r [<- | [<- | [<- | []]]]; eexists; split; reflexivity.
Defined.

Lemma calculate_financial_metrics_numeric_witness :
  calculate_financial_metrics sample_invoice INV_UNIT_COST =
    {| fm_total_amount := PFloat 7700; fm_count := 2; fm_average_amount := PFloat 3850 |}.
Proof.
  pose proof (calculate_financial_metrics_numeric sample_invoice INV_UNIT_COST
                ltac:(simpl; tauto) ltac:(discriminate)) as E.
  rewrite E; [vm_compute; reflexivity |].
  intros r [<- | [<- | []]]; eexists; split; reflexivity.
Defined.

Lemma calculate_financial_metrics_no_rows_witness :
  let m := calculate_financial_metrics (mkDataFrame (df_columns sample_invoice) []) INV_UNIT_COST in
  (fm_total_amount m = PInt 0 \/ fm_total_amount m = PFloat 0) /\
  fm_count m = 0%nat /\
  exists f, fm_average_amount m = PFloat f /\ is_nan f = true.
Proof.
  apply calculate_financial_metrics_no_rows; [simpl; tauto | reflexivity].
Defined.

Lemma calculate_financial_metrics_fallback_witness :
  calculate_financial_metrics text_invoice INV_UNIT_COST =
    {| fm_total_amount := PFloat 0; fm_count := 0; fm_average_amount := PFloat 0 |}.
Proof.
  apply calculate_financial_metrics_fallback. right.
  exists text_cost_row. split; [right; left; reflexivity | reflexivity].
Defined.

Lemma app_analysis_report_witness :
  exists total_spend df_results summary_stats,
    app_analysis ascii_lower unicode_isspace float_repr_inst token_sort_ratio_inst
      DEFAULT_MATCH_THRESHOLD sample_invoice sample_clinical
      = Shown 2 total_spend df_results summary_stats.
Proof.
  destruct (app_analysis_report ascii_lower unicode_isspace float_repr_inst token_sort_ratio_inst
              DEFAULT_MATCH_THRESHOLD sample_invoice sample_clinical eq_refl eq_refl)
    as [ts [res [summary [E _]]]].
  { intros r Hr. simpl in Hr. destruct Hr as [<- | [<- | []]]; discriminate. }
  exists ts, res, summary. exact E.
Defined.

Lemma format_currency_cents_witness :
  (exists s, format_currency (PFloat (-1234.565)) = Ok s /\ hd_error s = Some 36 /\
    (is_nan (-1234.565) = true -> s = pys "$nan") /\
    (forall sg, FloatOps.Prim2SF (-1234.565) = SpecFloat.S754_infinity sg ->
       s = pys "$" ++ sign_str sg ++ pys "inf") /\
    (forall q, float_q (-1234.565) = Some q ->
       (In 45 s <-> float_sign (-1234.565) = true) /\
       (Qabs (inject_Z (read_digits 0 s) / 100 - Qabs q) <= 1 # 200)%Q)) /\
  format_currency (PFloat (-1234.565)) = Ok (pys "$-1,234.57") /\
  format_currency (PFloat (-0)) = Ok (pys "$-0.00") /\
  format_currency (PFloat nan) = Ok (pys "$nan").
Proof.
  split; [apply format_currency_cents |].
  split; [| split]; vm_compute; reflexivity.
Defined.
